(** * MailServer: the estimate endpoint and its CORS check

    A shallow embedding of the two request pipelines of the repository,
    [src/index.js] (module [Index]) and [src/unnamed/part_000] (module
    [Server]), together with the part of the JavaScript runtime they rely on:
    strings as sequences of UTF-16 code units, values parsed from a JSON body,
    truthiness, string conversion, regular expressions, and promises.

    Asynchronous code runs in virtual time, in milliseconds since the
    handler was entered. A promise is known by the instant at which it
    settles and by its outcome, or by the fact that it never settles; the
    relay behind [transporter.sendMail] is any function from the sends of a
    request to such outcomes. Synchronous steps take no time. An [async]
    body threads the clock, the log of the sends issued and the console, and
    completes with a value, with an exception, or not at all. *)

From Stdlib Require Import List NArith Arith Lia Bool Ascii String.
Import ListNotations.
Local Open Scope list_scope.

Set Implicit Arguments.

(* ------------------------------------------------------------------ *)
(** ** Strings *)

(** A JavaScript string is a sequence of 16-bit code units. *)
Definition jschar := N.
Definition jsstring := list jschar.

Definition ch (a : ascii) : jschar := N_of_ascii a.
Arguments ch a%_char.

(** ASCII source literals. *)
Definition lit (s : string) : jsstring :=
  map N_of_ascii (list_ascii_of_string s).
Arguments lit s%_string.

(** Characters of the source that are not plain ASCII, or that cannot be
    written inside a literal here. *)
Definition dquote : jschar := 34%N.
Definition newline : jschar := 10%N.
Definition emdash : jschar := 8212%N.
Definition bullet : jschar := 8226%N.

Fixpoint str_eqb (a b : jsstring) : bool :=
  match a, b with
  | [], [] => true
  | x :: a', y :: b' => N.eqb x y && str_eqb a' b'
  | _, _ => false
  end.

Definition is_empty (s : jsstring) : bool :=
  match s with [] => true | _ => false end.

(** [\s] of a regular expression, and the characters [trim] removes:
    WhiteSpace and LineTerminator of ECMAScript. *)
Definition is_space (c : jschar) : bool :=
  existsb (N.eqb c)
    [9; 10; 11; 12; 13; 32; 160; 5760; 8232; 8233; 8239; 8287; 12288; 65279]%N
  || (N.leb 8192 c && N.leb c 8202).

Fixpoint dropWhile (p : jschar -> bool) (s : jsstring) : jsstring :=
  match s with
  | [] => []
  | c :: r => if p c then dropWhile p r else s
  end.

(** [String.prototype.trim]. *)
Definition trim (s : jsstring) : jsstring :=
  rev (dropWhile is_space (rev (dropWhile is_space s))).

(** [String.prototype.split] with a one-character separator. *)
Fixpoint split (sep : jschar) (s : jsstring) : list jsstring :=
  match s with
  | [] => [[]]
  | c :: r =>
      if N.eqb c sep then [] :: split sep r
      else match split sep r with
           | [] => [[c]]
           | h :: t => (c :: h) :: t
           end
  end.

(** [Array.prototype.join]. *)
Fixpoint join (sep : jsstring) (l : list jsstring) : jsstring :=
  match l with
  | [] => []
  | [s] => s
  | s :: r => s ++ sep ++ join sep r
  end.

(** [Array.prototype.includes] on an array of strings. *)
Definition includes (l : list jsstring) (s : jsstring) : bool :=
  existsb (str_eqb s) l.

(** [s.replace(/[<>]/g, '')]: every code unit of the class is deleted. *)
Definition is_angle (c : jschar) : bool :=
  N.eqb c (ch "<") || N.eqb c (ch ">").

Definition stripAngles (s : jsstring) : jsstring :=
  filter (fun c => negb (is_angle c)) s.

(* ------------------------------------------------------------------ *)
(** ** Regular expressions *)

(** The fragment the source uses: character classes, concatenation and
    [+]; alternation and the empty language are needed by derivatives. *)
Inductive regex : Type :=
| Empty
| Eps
| Class (p : jschar -> bool)
| Cat (r s : regex)
| Alt (r s : regex)
| Star (r : regex).

Definition Plus (r : regex) : regex := Cat r (Star r).

Fixpoint nullable (r : regex) : bool :=
  match r with
  | Empty => false
  | Eps => true
  | Class _ => false
  | Cat r s => nullable r && nullable s
  | Alt r s => nullable r || nullable s
  | Star _ => true
  end.

Fixpoint deriv (c : jschar) (r : regex) : regex :=
  match r with
  | Empty => Empty
  | Eps => Empty
  | Class p => if p c then Eps else Empty
  | Cat r s =>
      if nullable r then Alt (Cat (deriv c r) s) (deriv c s)
      else Cat (deriv c r) s
  | Alt r s => Alt (deriv c r) (deriv c s)
  | Star r => Cat (deriv c r) (Star r)
  end.

(** [/^r$/.test(s)]: the whole string is in the language of [r]. *)
Fixpoint matches (r : regex) (s : jsstring) : bool :=
  match s with
  | [] => nullable r
  | c :: s' => matches (deriv c r) s'
  end.

(** The language of a regular expression. *)
Inductive Lang : regex -> jsstring -> Prop :=
| LEps : Lang Eps []
| LClass p c : p c = true -> Lang (Class p) [c]
| LCat r s u v : Lang r u -> Lang s v -> Lang (Cat r s) (u ++ v)
| LAltL r s u : Lang r u -> Lang (Alt r s) u
| LAltR r s u : Lang s u -> Lang (Alt r s) u
| LStarNil r : Lang (Star r) []
| LStarCons r u v : Lang r u -> Lang (Star r) v -> Lang (Star r) (u ++ v).

(* ------------------------------------------------------------------ *)
(** ** Values *)

(** Numbers are IEEE doubles; the program only tests them for truthiness
    and converts them to strings, so both are taken as an interface. *)
Class JsNumber (num : Type) : Type := {
  num_truthy : num -> bool;
  num_toString : num -> jsstring
}.

(** Bodies that hold no number: all it takes to run the model on the
    requests used as examples below. *)
Inductive NoNumber : Type := .

#[export] Instance JsNumber_NoNumber : JsNumber NoNumber := {
  num_truthy := fun n => match n with end;
  num_toString := fun n => match n with end
}.

Section Values.
Context {num : Type} {NumOps : JsNumber num}.

(** What [express.json()] hands to a handler: a parsed JSON text. An
    object is the list of its own properties. *)
#[warnings="-register-all"]
Inductive json : Type :=
| JNull
| JBool (b : bool)
| JNum (n : num)
| JStr (s : jsstring)
| JArr (l : list json)
| JObj (kv : list (jsstring * json)).

(** A JavaScript value as it reaches the handlers: [None] is [undefined]. *)
Definition jsval := option json.

Definition undefined : jsval := None.

Fixpoint assoc (k : jsstring) (kv : list (jsstring * json)) : jsval :=
  match kv with
  | [] => None
  | (k', v) :: r => if str_eqb k k' then Some v else assoc k r
  end.

(** [o.k] for a key that no built-in prototype defines (the keys read by
    the handlers: name, email, phone, city, type, message, messageId). *)
Definition prop (k : jsstring) (o : json) : jsval :=
  match o with
  | JObj kv => assoc k kv
  | _ => None
  end.

(** ToBoolean. *)
Definition truthy (v : jsval) : bool :=
  match v with
  | None => false
  | Some JNull => false
  | Some (JBool b) => b
  | Some (JNum n) => num_truthy n
  | Some (JStr s) => negb (is_empty s)
  | Some (JArr _) => true
  | Some (JObj _) => true
  end.

(** [a || b]. *)
Definition or_else (a b : jsval) : jsval := if truthy a then a else b.

(** A thrown or rejected value, observed through [err?.message]. *)
Record exn : Type := mkExn { err_message : jsval }.

Definition Error (msg : jsstring) : exn := mkExn (Some (JStr msg)).

Definition TypeError_toPrimitive : exn :=
  Error (lit "Cannot convert object to primitive value").

Definition TypeError_readProperty (base k : jsstring) : exn :=
  Error (lit "Cannot read properties of " ++ base ++ lit " (reading '"
           ++ k ++ lit "')").

Inductive result (A : Type) : Type :=
| Ok (a : A)
| Throw (e : exn).
Arguments Ok {A} a.
Arguments Throw {A} e.

(** ToString on a parsed JSON value. A plain object converts through
    [Object.prototype.toString] unless an own property named [toString]
    shadows it; that property is never callable, and [valueOf] then yields
    no primitive, so the conversion throws. Arrays convert through [join],
    which renders [null] elements as the empty string. *)
Fixpoint ToString (v : json) : result jsstring :=
  match v with
  | JNull => Ok (lit "null")
  | JBool b => Ok (if b then lit "true" else lit "false")
  | JNum n => Ok (num_toString n)
  | JStr s => Ok s
  | JArr l =>
      match
        (fix elems (l : list json) : result (list jsstring) :=
           match l with
           | [] => Ok []
           | x :: r =>
               match (match x with JNull => Ok [] | _ => ToString x end) with
               | Throw e => Throw e
               | Ok s =>
                   match elems r with
                   | Throw e => Throw e
                   | Ok ss => Ok (s :: ss)
                   end
               end
           end) l
      with
      | Throw e => Throw e
      | Ok ss => Ok (join (lit ",") ss)
      end
  | JObj kv =>
      match assoc (lit "toString") kv with
      | Some _ => Throw TypeError_toPrimitive
      | None => Ok (lit "[object Object]")
      end
  end.

(** [String(v)] and [`${v}`]. *)
Definition toStr (v : jsval) : result jsstring :=
  match v with
  | None => Ok (lit "undefined")
  | Some j => ToString j
  end.

(** [v === 'literal']. *)
Definition strict_eq_str (v : jsval) (s : jsstring) : bool :=
  match v with
  | Some (JStr s') => str_eqb s' s
  | _ => false
  end.

End Values.

Arguments json num : clear implicits.
Arguments jsval num : clear implicits.
Arguments exn num : clear implicits.
Arguments result num A : clear implicits.
Arguments Ok {num A} a.
Arguments Throw {num A} e.

(* ------------------------------------------------------------------ *)
(** ** Configuration *)

(** The variables of [process.env] the program reads. *)
Record Env : Type := {
  ALLOWED_ORIGIN : option jsstring;
  DISABLE_EMAIL : option jsstring;
  FROM_NAME : option jsstring;
  MAIL_USER : option jsstring;
  LEADS_TO : option jsstring
}.

(** [process.env.X || d]: an unset or empty variable gives the default. *)
Definition env_or (v : option jsstring) (d : jsstring) : jsstring :=
  match v with
  | Some (c :: s) => c :: s
  | _ => d
  end.

(** [`${process.env.X}`]. *)
Definition env_str (v : option jsstring) : jsstring :=
  match v with
  | Some s => s
  | None => lit "undefined"
  end.

(** [process.env.X === 'literal']. *)
Definition env_is (v : option jsstring) (s : jsstring) : bool :=
  match v with
  | Some s' => str_eqb s' s
  | None => false
  end.

(* ------------------------------------------------------------------ *)
(** ** The CORS origin callback (index.js 15-23, part_000 22-29) *)

(** [cb(null, true)] or [cb(new Error(message))]. *)
Inductive cors_decision : Type :=
| CorsAllow
| CorsError (message : jsstring).

Definition allowList (env : Env) : list jsstring :=
  filter (fun s => negb (is_empty s))
    (map trim (split (ch ",") (env_or (ALLOWED_ORIGIN env) []))).

(** [origin] is [req.headers.origin]: [None] when the header is absent. *)
Definition corsOrigin (env : Env) (origin : option jsstring) : cors_decision :=
  let allow := allowList env in
  match origin with
  | None => CorsAllow
  | Some o =>
      if is_empty o || includes allow o then CorsAllow
      else CorsError (lit "CORS blocked from origin: " ++ o)
  end.

(* ------------------------------------------------------------------ *)
(** ** Mail messages, responses, promises *)

Section Runtime.
Context {num : Type} {NumOps : JsNumber num}.

#[local] Abbreviation json := (json num).
#[local] Abbreviation jsval := (jsval num).
#[local] Abbreviation exn := (exn num).
#[local] Abbreviation result := (result num).

(** The object handed to [transporter.sendMail]. *)
Record MailMessage : Type := {
  from : jsstring;
  to : jsval;
  replyTo : jsval;
  subject : jsstring;
  text : option jsstring;
  html : option jsstring
}.

(** [res.status(code).json(body)]; [body] is the object literal. *)
Record Response : Type := {
  status : nat;
  body : list (jsstring * jsval)
}.

Definition time := N.

Inductive settled (A : Type) : Type :=
| Fulfilled (v : A)
| Rejected (e : exn).
Arguments Fulfilled {A} v.
Arguments Rejected {A} e.

(** A promise, seen from outside: the instant at which it settles and how,
    or [None] when it never does. *)
Definition promise (A : Type) : Type := option (time * settled A).

(** The relay behind [transporter.sendMail]: what the [n]-th send of a
    request does with a message, as the delay until it settles and the
    outcome; [None] is a relay that never answers. *)
Definition Transport : Type :=
  nat -> MailMessage -> option (time * settled jsval).

(** [Promise.race([p, q])]: the first to settle decides; when both settle
    at the same instant the one listed first does. *)
Definition race {A} (p q : promise A) : promise A :=
  match p, q with
  | None, _ => q
  | _, None => p
  | Some (tp, _), Some (tq, _) => if N.leb tp tq then p else q
  end.

(** [Promise.all([p, q])]: fulfilled with both values once both are
    fulfilled, rejected as soon as one is rejected. *)
Definition all2 {A B} (p : promise A) (q : promise B) : promise (A * B) :=
  match p, q with
  | Some (tp, Rejected e), Some (tq, Rejected e') =>
      if N.leb tp tq then Some (tp, Rejected e) else Some (tq, Rejected e')
  | Some (tp, Rejected e), _ => Some (tp, Rejected e)
  | _, Some (tq, Rejected e) => Some (tq, Rejected e)
  | Some (tp, Fulfilled a), Some (tq, Fulfilled b) =>
      Some (N.max tp tq, Fulfilled (a, b))
  | _, _ => None
  end.

(** What a request leaves behind: the clock, the sends issued so far with
    the instant of each, and what went to [console.error]. *)
Record World : Type := {
  clock : time;
  outbox : list (time * MailMessage);
  console : list exn
}.

Definition boot : World := {| clock := 0%N; outbox := []; console := [] |}.

Inductive completion (A : Type) : Type :=
| Return (a : A)
| Raise (e : exn)
| Pending.
Arguments Return {A} a.
Arguments Raise {A} e.
Arguments Pending {A}.

(** An [async] function body. *)
Definition async (A : Type) : Type := World -> World * completion A.

Definition ret {A} (a : A) : async A := fun w => (w, Return a).

Definition bind {A B} (c : async A) (k : A -> async B) : async B :=
  fun w =>
    match c w with
    | (w', Return a) => k a w'
    | (w', Raise e) => (w', Raise e)
    | (w', Pending) => (w', Pending)
    end.

Definition lift {A} (r : result A) : async A :=
  fun w =>
    match r with
    | Ok a => (w, Return a)
    | Throw e => (w, Raise e)
    end.

(** [try { c } catch (err) { h err }]. *)
Definition try_catch {A} (c : async A) (h : exn -> async A) : async A :=
  fun w =>
    match c w with
    | (w', Raise e) => h e w'
    | r => r
    end.

(** [await p]. *)
Definition await {A} (p : promise A) : async A :=
  fun w =>
    match p with
    | None => (w, Pending)
    | Some (t, r) =>
        let w' := {| clock := N.max (clock w) t;
                     outbox := outbox w;
                     console := console w |} in
        match r with
        | Fulfilled v => (w', Return v)
        | Rejected e => (w', Raise e)
        end
    end.

(** [transporter.sendMail(m)]: the send is issued now and a promise comes
    back at once. *)
Definition sendMail (tr : Transport) (m : MailMessage) : async (promise jsval) :=
  fun w =>
    let p := match tr (List.length (outbox w)) m with
             | None => None
             | Some (d, r) => Some ((clock w + d)%N, r)
             end in
    ({| clock := clock w;
        outbox := outbox w ++ [(clock w, m)];
        console := console w |}, Return p).

(** [console.error('MAIL_SEND_FAILED:', err)]. *)
Definition console_error (e : exn) : async unit :=
  fun w =>
    ({| clock := clock w;
        outbox := outbox w;
        console := console w ++ [e] |}, Return tt).

Definition rbind {A B} (r : result A) (k : A -> result B) : result B :=
  match r with
  | Ok a => k a
  | Throw e => Throw e
  end.

End Runtime.

Arguments MailMessage num : clear implicits.
Arguments Response num : clear implicits.
Arguments Transport num : clear implicits.
Arguments World num : clear implicits.
Arguments async num A : clear implicits.
Arguments promise num A : clear implicits.
Arguments settled num A : clear implicits.
Arguments completion num A : clear implicits.
Arguments Fulfilled {num A} v.
Arguments Rejected {num A} e.
Arguments Return {num A} a.
Arguments Raise {num A} e.
Arguments Pending {num A}.

Declare Scope js_scope.
Delimit Scope js_scope with js.
Notation "x <- c ;; k" := (bind c (fun x => k))
  (at level 61, c at next level, right associativity) : js_scope.
Notation "c ;;; k" := (bind c (fun _ => k))
  (at level 61, right associativity) : js_scope.
Notation "x <~ r ;; k" := (rbind r (fun x => k))
  (at level 61, r at next level, right associativity) : js_scope.

Local Open Scope js_scope.

(* ------------------------------------------------------------------ *)
(** ** What both files share *)

Section Estimate.
Context {num : Type} {NumOps : JsNumber num}.

#[local] Abbreviation json := (json num).
#[local] Abbreviation jsval := (jsval num).
#[local] Abbreviation exn := (exn num).
#[local] Abbreviation result := (result num).
#[local] Abbreviation MailMessage := (MailMessage num).
#[local] Abbreviation Response := (Response num).

Definition str (s : jsstring) : jsval := Some (JStr s).

(** [[^\s@]]. *)
Definition notSpaceAt (c : jschar) : bool :=
  negb (is_space c || N.eqb c (ch "@")).

(** [/^[^\s@]+@[^\s@]+\.[^\s@]+$/]. *)
Definition emailPattern : regex :=
  Cat (Plus (Class notSpaceAt))
    (Cat (Class (N.eqb (ch "@")))
       (Cat (Plus (Class notSpaceAt))
          (Cat (Class (N.eqb (ch ".")))
             (Plus (Class notSpaceAt))))).

(** [isEmail = (v = '') => pattern.test(v)] (index.js 51, part_000 73). *)
Definition isEmail (v : jsval) : result bool :=
  let v := match v with None => str [] | Some _ => v end in
  s <~ toStr v ;;
  Ok (matches emailPattern s).

(** [const { name, email, phone, city, type, message } = req.body || {}]. *)
Record Fields : Type := {
  name : jsval;
  email : jsval;
  phone : jsval;
  city : jsval;
  type : jsval;
  message : jsval
}.

Definition destructure (req_body : jsval) : Fields :=
  let b := match or_else req_body (Some (JObj [])) with
           | Some j => j
           | None => JObj []
           end in
  {| name := prop (lit "name") b;
     email := prop (lit "email") b;
     phone := prop (lit "phone") b;
     city := prop (lit "city") b;
     type := prop (lit "type") b;
     message := prop (lit "message") b |}.

(** [!name || !email || !phone || !city]. *)
Definition missingRequired (f : Fields) : bool :=
  negb (truthy (name f)) || negb (truthy (email f))
  || negb (truthy (phone f)) || negb (truthy (city f)).

Definition respond (code : nat) (b : list (jsstring * jsval)) : Response :=
  {| status := code; body := b |}.

Definition failure (code : nat) (tag : jsstring) : Response :=
  respond code [(lit "ok", Some (JBool false)); (lit "error", str tag)].

(** [`"${FROM_NAME}" <${FROM_ADDR}>`]. *)
Definition sender (env : Env) : jsstring :=
  let FROM_NAME := env_or (FROM_NAME env) (lit "Website") in
  let FROM_ADDR := env_str (MAIL_USER env) in
  [dquote] ++ FROM_NAME ++ [dquote] ++ lit " <" ++ FROM_ADDR ++ lit ">".

Definition leadsTo (env : Env) : jsstring :=
  env_or (LEADS_TO env) (lit "joe@patioblindsdirect.com").

(** [`New Estimate — ${name} (${city})`]. *)
Definition leadSubject (f : Fields) : result jsstring :=
  s_name <~ toStr (name f) ;;
  s_city <~ toStr (city f) ;;
  Ok (lit "New Estimate " ++ [emdash] ++ lit " " ++ s_name
        ++ lit " (" ++ s_city ++ lit ")").

(** The plain-text field dump of the lead notice. *)
Definition leadText (f : Fields) (nowISO : jsstring) : result jsstring :=
  s_name <~ toStr (name f) ;;
  s_email <~ toStr (email f) ;;
  s_phone <~ toStr (phone f) ;;
  s_city <~ toStr (city f) ;;
  s_type <~ toStr (or_else (type f) (str [emdash])) ;;
  s_message <~ toStr (or_else (message f) (str [emdash])) ;;
  Ok (join [newline]
        [ lit "Name: " ++ s_name;
          lit "Email: " ++ s_email;
          lit "Phone: " ++ s_phone;
          lit "City: " ++ s_city;
          lit "Type: " ++ s_type;
          lit "Message: " ++ s_message;
          lit "Submitted: " ++ nowISO ]).

Definition autoSubject : jsstring :=
  lit "We received your estimate request " ++ [emdash]
    ++ lit " Patio Blinds Direct".

(** The constant stretches of the auto-reply template, between the
    interpolated fields. *)
Definition html_open : jsstring :=
  [newline] ++ lit "        <div style=" ++ [dquote]
  ++ lit "font-family:Inter,system-ui,Arial,sans-serif;line-height:1.6;color:#111"
  ++ [dquote] ++ lit ">" ++ [newline]
  ++ lit "          <h2 style=" ++ [dquote] ++ lit "margin:0 0 8px" ++ [dquote]
  ++ lit ">Thanks, ".

Definition html_after_name : jsstring :=
  lit "!</h2>" ++ [newline]
  ++ lit "          <p>We received your request for a free estimate. A specialist will contact you shortly.</p>"
  ++ [newline]
  ++ lit "          <p><strong>Summary</strong><br>" ++ [newline]
  ++ lit "          Phone: ".

Definition html_after_phone : jsstring :=
  lit "<br>" ++ [newline] ++ lit "          City: ".

Definition html_after_city : jsstring :=
  lit "<br>" ++ [newline] ++ lit "          Blind Type: ".

Definition html_after_type : jsstring :=
  lit "<br>" ++ [newline] ++ lit "          Message: ".

Definition html_close : jsstring :=
  lit "</p>" ++ [newline]
  ++ lit "          <p>Questions? Reply to this email or call (626) 430-4003.</p>"
  ++ [newline]
  ++ lit "          <p style=" ++ [dquote] ++ lit "color:#6b7280" ++ [dquote]
  ++ lit ">Patio Blinds Direct " ++ [bullet]
  ++ lit " Serving all Southern California</p>" ++ [newline]
  ++ lit "        </div>" ++ [newline]
  ++ lit "      ".

(** [message ? String(message).replace(/[<>]/g, '') : '—']. *)
Definition messageCell (f : Fields) : result jsstring :=
  if truthy (message f)
  then s <~ toStr (message f) ;; Ok (stripAngles s)
  else Ok [emdash].

(** The HTML body of the auto-reply (index.js 97-109, part_000 143-155). *)
Definition autoHtml (f : Fields) : result jsstring :=
  s_name <~ toStr (name f) ;;
  s_phone <~ toStr (phone f) ;;
  s_city <~ toStr (city f) ;;
  s_type <~ toStr (or_else (type f) (str [emdash])) ;;
  s_message <~ messageCell f ;;
  Ok (html_open ++ s_name ++ html_after_name ++ s_phone
        ++ html_after_phone ++ s_city ++ html_after_city ++ s_type
        ++ html_after_type ++ s_message ++ html_close).

(** The lead notice to the business inbox. *)
Definition leadMessage (env : Env) (f : Fields) (subj txt : jsstring)
  : MailMessage :=
  {| from := sender env;
     to := str (leadsTo env);
     replyTo := email f;
     subject := subj;
     text := Some txt;
     html := None |}.

(** The acknowledgment to the submitter. *)
Definition autoMessage (env : Env) (f : Fields) (markup : jsstring)
  : MailMessage :=
  {| from := sender env;
     to := email f;
     replyTo := str (leadsTo env);
     subject := autoSubject;
     text := None;
     html := Some markup |}.

(** What a request came to: the response and when it was written (or
    [None] when none ever is), the sends issued with their instants, and the
    errors logged. *)
Record Outcome : Type := {
  response : option (time * Response);
  sent : list (time * MailMessage);
  logged : list exn
}.

Definition run (h : async num Response) : Outcome :=
  match h boot with
  | (w, Return r) =>
      {| response := Some (clock w, r); sent := outbox w; logged := console w |}
  | (w, _) =>
      {| response := None; sent := outbox w; logged := console w |}
  end.

End Estimate.

Arguments Fields num : clear implicits.
Arguments Outcome num : clear implicits.

(* ------------------------------------------------------------------ *)
(** ** src/index.js *)

Module Index.
Section Handler.
Context {num : Type} {NumOps : JsNumber num}.

(** [v.k]: reading a property of [undefined] or [null] throws. *)
Definition member (v : jsval num) (k : jsstring) : result num (jsval num) :=
  match v with
  | None => Throw (TypeError_readProperty (lit "undefined") k)
  | Some JNull => Throw (TypeError_readProperty (lit "null") k)
  | Some j => Ok (prop k j)
  end.

(** [app.post('/api/send-estimate', async (req, res) => ...)], lines
    58-117. The two sends are awaited one after the other. *)
Definition handler (env : Env) (transporter : Transport num)
    (nowISO : jsstring) (req_body : jsval num) : async num (Response num) :=
  try_catch
    (let f := destructure req_body in
     if missingRequired f then ret (failure 400 (lit "MISSING_FIELDS"))
     else
       valid <- lift (isEmail (email f)) ;;
       if negb valid then ret (failure 400 (lit "INVALID_EMAIL"))
       else
         subj <- lift (leadSubject f) ;;
         txt <- lift (leadText f nowISO) ;;
         internalP <- sendMail transporter (leadMessage env f subj txt) ;;
         internal <- await internalP ;;
         markup <- lift (autoHtml f) ;;
         autorespP <- sendMail transporter (autoMessage env f markup) ;;
         autoresp <- await autorespP ;;
         leadId <- lift (member internal (lit "messageId")) ;;
         autoId <- lift (member autoresp (lit "messageId")) ;;
         ret (respond 200 [ (lit "ok", Some (JBool true));
                            (lit "leadId", leadId);
                            (lit "autoId", autoId) ]))
    (fun err =>
       console_error err ;;;
       ret (failure 500 (lit "MAIL_SEND_FAILED"))).

End Handler.
End Index.

(* ------------------------------------------------------------------ *)
(** ** src/unnamed/part_000 *)

Module Server.

(** The timeouts given to [nodemailer.createTransport], lines 56-58. *)
Record TransportOptions : Type := {
  connectionTimeout : N;
  greetingTimeout : N;
  socketTimeout : N
}.

Definition transporterOptions : TransportOptions :=
  {| connectionTimeout := 5000%N;
     greetingTimeout := 5000%N;
     socketTimeout := 5000%N |}.

Section Handler.
Context {num : Type} {NumOps : JsNumber num}.

(** [new Promise((_, rej) => setTimeout(() => rej(new Error('SMTP_TIMEOUT')), ms))]
    created at instant [t0]. *)
Definition timer {A} (t0 ms : time) : promise num A :=
  Some ((t0 + ms)%N, Rejected (Error (lit "SMTP_TIMEOUT"))).

(** [async function sendWithTimeout(sendPromise, ms = 6000)], lines 77-87:
    the timer is armed when the function is called and the returned promise
    settles as whichever of the two settles first. Clearing the timer
    afterwards changes nothing that is observed here. *)
Definition sendWithTimeout {A} (sendPromise : promise num A)
    (ms : option time) : async num (promise num A) :=
  fun w =>
    let ms := match ms with Some m => m | None => 6000%N end in
    let timeout := timer (clock w) ms in
    (w, Return (race sendPromise timeout)).

(** [const code = err?.message === 'SMTP_TIMEOUT' ? 504 : 502], line 172. *)
Definition code (err : exn num) : nat :=
  if strict_eq_str (err_message err) (lit "SMTP_TIMEOUT") then 504 else 502.

(** [v?.k]. *)
Definition optMember (v : jsval num) (k : jsstring) : jsval num :=
  match v with
  | None => None
  | Some JNull => None
  | Some j => prop k j
  end.

(** [app.post('/api/send-estimate', async (req, res) => ...)], lines
    93-175. Both sends are issued before either is awaited. *)
Definition handler (env : Env) (transporter : Transport num)
    (nowISO : jsstring) (req_body : jsval num) : async num (Response num) :=
  try_catch
    (let f := destructure req_body in
     if missingRequired f then ret (failure 400 (lit "MISSING_FIELDS"))
     else
       valid <- lift (isEmail (email f)) ;;
       if negb valid then ret (failure 400 (lit "INVALID_EMAIL"))
       else if env_is (DISABLE_EMAIL env) (lit "true") then
         ret (respond 200 [ (lit "ok", Some (JBool true));
                            (lit "note", str (lit "email disabled"));
                            (lit "submittedAt", str nowISO) ])
       else
         internalText <- lift (leadText f nowISO) ;;
         subj <- lift (leadSubject f) ;;
         internalP <- sendMail transporter (leadMessage env f subj internalText) ;;
         markup <- lift (autoHtml f) ;;
         autorespP <- sendMail transporter (autoMessage env f markup) ;;
         p1 <- sendWithTimeout internalP (Some 7000%N) ;;
         p2 <- sendWithTimeout autorespP (Some 7000%N) ;;
         both <- await (all2 p1 p2) ;;
         let '(internal, autoresp) := both in
         ret (respond 200
                [ (lit "ok", Some (JBool true));
                  (lit "leadId",
                    or_else (optMember internal (lit "messageId")) (Some JNull));
                  (lit "autoId",
                    or_else (optMember autoresp (lit "messageId")) (Some JNull)) ]))
    (fun err =>
       console_error err ;;;
       ret (failure (code err) (lit "MAIL_SEND_FAILED"))).

End Handler.
End Server.


(* ------------------------------------------------------------------ *)
(** ** Notions used in the statements *)

(** What the pattern of [isEmail] accepts: a non-empty local part, one
    at-sign, and after it two non-empty stretches around a dot, none of them
    holding white space or a further at-sign. *)
Definition emailShape (s : jsstring) : Prop :=
  exists a b c,
    s = a ++ ch "@" :: b ++ ch "." :: c
    /\ a <> [] /\ b <> [] /\ c <> []
    /\ Forall (fun x => notSpaceAt x = true) a
    /\ Forall (fun x => notSpaceAt x = true) b
    /\ Forall (fun x => notSpaceAt x = true) c.


(** A request turned away at once: nothing sent, nothing logged. *)
Definition rejected {num : Type} (code : nat) (tag : jsstring) : Outcome num :=
  {| response := Some (0%N, failure code tag); sent := []; logged := [] |}.

(** What the [catch] of index.js (lines 113-116) leaves: the error logged
    and the one generic answer. *)
Definition caught {num : Type} (t : time) (out : list (time * MailMessage num))
    (e : exn num) : Outcome num :=
  {| response := Some (t, failure 500 (lit "MAIL_SEND_FAILED"));
     sent := out; logged := [e] |}.

(** The bound of each send in part_000, lines 160-161. *)
Definition sendTimeout : time := 7000%N.

(** A send that has not settled when its timer fires: it settles later,
    or never. *)
Definition overdue {num : Type} {A : Type}
    (o : option (time * settled num A)) : Prop :=
  match o with
  | None => True
  | Some (d, _) => (sendTimeout < d)%N
  end.

(** A send that the relay refuses before its timer fires. *)
Definition refusedInTime {num : Type} {A : Type}
    (o : option (time * settled num A)) : Prop :=
  exists d e, o = Some (d, Rejected e) /\ (d <= sendTimeout)%N.

(* ------------------------------------------------------------------ *)
(** ** Concrete requests, configurations and relays *)

Module Examples.

Definition env : Env :=
  {| ALLOWED_ORIGIN :=
       Some (lit "https://patioblindsdirect.com, https://www.patioblindsdirect.com");
     DISABLE_EMAIL := None;
     FROM_NAME := None;
     MAIL_USER := Some (lit "no-reply@patioblindsdirect.com");
     LEADS_TO := None |}.

Definition env_disabled : Env :=
  {| ALLOWED_ORIGIN := ALLOWED_ORIGIN env;
     DISABLE_EMAIL := Some (lit "true");
     FROM_NAME := None;
     MAIL_USER := MAIL_USER env;
     LEADS_TO := None |}.

Definition now : jsstring := lit "2025-01-01T00:00:00.000Z".

Definition form (fields : list (string * string)) : jsval NoNumber :=
  Some (JObj (map (fun kv => (lit (fst kv), JStr (lit (snd kv)))) fields)).

Definition request : jsval NoNumber :=
  form [ ("name", "Al"); ("email", "al@example.com"); ("phone", "555-0100");
         ("city", "Pasadena"); ("message", "<b>hi</b>") ]%string.

Definition request_no_city : jsval NoNumber :=
  form [ ("name", "Al"); ("email", "al@example.com");
         ("phone", "555-0100") ]%string.

Definition request_bad_email : jsval NoNumber :=
  form [ ("name", "Al"); ("email", "al.example.com"); ("phone", "555-0100");
         ("city", "Pasadena") ]%string.

Definition request_markup_name : jsval NoNumber :=
  form [ ("name", "<i>Al</i>"); ("email", "al@example.com");
         ("phone", "555-0100"); ("city", "Pasadena") ]%string.

(** The HTML body built for a request. *)
Definition autoreply_html (req_body : jsval NoNumber) : jsstring :=
  match autoHtml (destructure req_body) with
  | Ok h => h
  | Throw _ => []
  end.

(** A relay that delivers the first send after 100 ms and the second
    after 150 ms, reporting the given identifiers. *)
Definition relay (id1 id2 : jsstring) : Transport NoNumber :=
  fun n _ =>
    match n with
    | O => Some (100%N, Fulfilled (Some (JObj [(lit "messageId", JStr id1)])))
    | _ => Some (150%N, Fulfilled (Some (JObj [(lit "messageId", JStr id2)])))
    end.

(** A relay that refuses every send after 30 ms. *)
Definition refusing : Transport NoNumber :=
  fun _ _ => Some (30%N, Rejected (Error (lit "connect ECONNREFUSED"))).

(** A relay that never answers. *)
Definition silent : Transport NoNumber := fun _ _ => None.

(** A relay that takes a minute over each send, then delivers it. *)
Definition slow : Transport NoNumber :=
  fun _ _ => Some (60000%N, Fulfilled (Some (JObj [(lit "messageId", JStr (lit "late"))]))).

End Examples.

(* ------------------------------------------------------------------ *)
(** ** Induction over JSON values *)

Section JsonInduction.
Context {num : Type}.
Variable P : json num -> Prop.
Hypothesis HNull : P JNull.
Hypothesis HBool : forall b, P (JBool b).
Hypothesis HNum : forall n, P (JNum n).
Hypothesis HStr : forall s, P (JStr s).
Hypothesis HArr : forall l, Forall P l -> P (JArr l).
Hypothesis HObj : forall kv, Forall (fun p => P (snd p)) kv -> P (JObj kv).

(** Induction through arrays and objects. *)
Fixpoint json_induction (j : json num) : P j :=
  match j with
  | JNull => HNull
  | JBool b => HBool b
  | JNum n => HNum n
  | JStr s => HStr s
  | JArr l =>
      HArr ((fix all (l : list (json num)) : Forall P l :=
               match l with
               | [] => Forall_nil P
               | x :: r => Forall_cons x (json_induction x) (all r)
               end) l)
  | JObj kv =>
      HObj ((fix all (kv : list (jsstring * json num))
               : Forall (fun p => P (snd p)) kv :=
               match kv with
               | [] => Forall_nil _
               | p :: r =>
                   Forall_cons p (json_induction (snd p)) (all r)
               end) kv)
  end.

End JsonInduction.

(* ------------------------------------------------------------------ *)
(** ** Further notions *)

(** A value that is present but falsy the way a form field can be: [null],
    [false] or the empty string. *)
Definition blank {num : Type} (v : jsval num) : Prop :=
  v = Some JNull \/ v = Some (JBool false) \/ v = Some (JStr []).

(** An object that carries a property of its own named [toString]. *)
Definition ownToString {num : Type} (v : jsval num) : Prop :=
  exists kv x, v = Some (JObj kv) /\ assoc (lit "toString") kv = Some x.


(** [s.startsWith(p)]. *)
Fixpoint prefixOf (p s : jsstring) : bool :=
  match p, s with
  | [], _ => true
  | _ :: _, [] => false
  | x :: p', y :: s' => N.eqb x y && prefixOf p' s'
  end.

(** [hay.includes(needle)]. *)
Fixpoint contains (needle hay : jsstring) : bool :=
  prefixOf needle hay
  || match hay with
     | [] => false
     | _ :: rest => contains needle rest
     end.

(** A string made of commas and white space only. *)
Definition onlySeparators (s : jsstring) : Prop :=
  Forall (fun c => is_space c = true \/ c = ch ",") s.

(* ------------------------------------------------------------------ *)
(** ** Further requests and relays *)

Module Cases.

(** The city is there, but empty. *)
Definition request_empty_city : jsval NoNumber :=
  Examples.form [ ("name", "Al"); ("email", "al@example.com");
                  ("phone", "555-0100"); ("city", "") ]%string.

(** The phone is an object with a [toString] key of its own. *)
Definition request_object_phone : jsval NoNumber :=
  Some (JObj [ (lit "name", JStr (lit "Al"));
               (lit "email", JStr (lit "al@example.com"));
               (lit "phone", JObj [(lit "toString", JNull)]);
               (lit "city", JStr (lit "Pasadena")) ]).

(** The email is an object with a [toString] key of its own. *)
Definition request_object_email : jsval NoNumber :=
  Some (JObj [ (lit "name", JStr (lit "Al"));
               (lit "email", JObj [(lit "toString", JNull)]);
               (lit "phone", JStr (lit "555-0100"));
               (lit "city", JStr (lit "Pasadena")) ]).

(** The message is there, and it is [false]. *)
Definition request_false_message : jsval NoNumber :=
  Some (JObj [ (lit "name", JStr (lit "Al"));
               (lit "email", JStr (lit "al@example.com"));
               (lit "phone", JStr (lit "555-0100"));
               (lit "city", JStr (lit "Pasadena"));
               (lit "message", JBool false) ]).

(** The message is there, and it is the empty string. *)
Definition request_empty_message : jsval NoNumber :=
  Examples.form [ ("name", "Al"); ("email", "al@example.com");
                  ("phone", "555-0100"); ("city", "Pasadena");
                  ("message", "") ]%string.

(** A relay that delivers both sends but resolves with no info object. *)
Definition bare : Transport NoNumber :=
  fun _ _ => Some (40%N, Fulfilled None).

(** A relay that delivers both sends with an info object that holds no
    identifier. *)
Definition anonymous : Transport NoNumber :=
  fun _ _ => Some (40%N, Fulfilled (Some (JObj []))).

(** The two messages of [Examples.request], as the handlers build them. *)
Definition lead_message : MailMessage NoNumber :=
  match leadSubject (destructure Examples.request),
        leadText (destructure Examples.request) Examples.now with
  | Ok subj, Ok txt =>
      leadMessage Examples.env (destructure Examples.request) subj txt
  | _, _ => leadMessage Examples.env (destructure Examples.request) [] []
  end.

Definition auto_message : MailMessage NoNumber :=
  autoMessage Examples.env (destructure Examples.request)
    (Examples.autoreply_html Examples.request).

(** The response of a request that got one. *)
Definition answer (o : Outcome NoNumber) : Response NoNumber :=
  match response o with
  | Some (_, r) => r
  | None => respond 0 []
  end.

Definition env_unconfigured : Env :=
  {| ALLOWED_ORIGIN := Some (lit " , ,");
     DISABLE_EMAIL := None;
     FROM_NAME := None;
     MAIL_USER := None;
     LEADS_TO := None |}.

End Cases.

(* ------------------------------------------------------------------ *)
(** ** src/unnamed/part_001: the SMTP test script (lines 41-68) *)

Module SmtpTest.
Section Script.
Context {num : Type} {NumOps : JsNumber num}.

(** What the script does that can be seen from outside. *)
Inductive Event : Type :=
| Printed (args : list (jsval num))
| Sent (t : time) (m : MailMessage num)
| Reported (e : exn num).

Definition is_sent (ev : Event) : bool :=
  match ev with
  | Sent _ _ => true
  | _ => false
  end.

(** The state of a run: the time elapsed and the events so far, in the
    order in which they happened. *)
Record Terminal : Type := {
  elapsed : time;
  trace : list Event
}.

Definition prog (A : Type) : Type := Terminal -> Terminal * completion num A.

Definition andThen {A B} (c : prog A) (k : A -> prog B) : prog B :=
  fun s =>
    match c s with
    | (s', Return a) => k a s'
    | (s', Raise e) => (s', Raise e)
    | (s', Pending) => (s', Pending)
    end.

(** [try { c } catch (e) { h e }]. *)
Definition tryCatch {A} (c : prog A) (h : exn num -> prog A) : prog A :=
  fun s =>
    match c s with
    | (s', Raise e) => h e s'
    | r => r
    end.

(** An expression that may throw. *)
Definition evaluate {A} (r : result num A) : prog A :=
  fun s =>
    match r with
    | Ok a => (s, Return a)
    | Throw e => (s, Raise e)
    end.

(** [await p] at the top level of the module. *)
Definition wait {A} (p : promise num A) : prog A :=
  fun s =>
    match p with
    | None => (s, Pending)
    | Some (t, r) =>
        let s' := {| elapsed := N.max (elapsed s) t; trace := trace s |} in
        match r with
        | Fulfilled v => (s', Return v)
        | Rejected e => (s', Raise e)
        end
    end.

(** [tx.sendMail(m)]: issued now, a promise comes back at once. *)
Definition send (tx : Transport num) (m : MailMessage num)
    : prog (promise num (jsval num)) :=
  fun s =>
    let p := match tx (List.length (filter is_sent (trace s))) m with
             | None => None
             | Some (d, r) => Some ((elapsed s + d)%N, r)
             end in
    ({| elapsed := elapsed s; trace := trace s ++ [Sent (elapsed s) m] |},
     Return p).

(** [console.log(...args)]. *)
Definition console_log (args : list (jsval num)) : prog unit :=
  fun s =>
    ({| elapsed := elapsed s; trace := trace s ++ [Printed args] |}, Return tt).

(** [console.error('... SMTP failed:', e)]. *)
Definition console_err (e : exn num) : prog unit :=
  fun s =>
    ({| elapsed := elapsed s; trace := trace s ++ [Reported e] |}, Return tt).

Definition check_mark : jschar := 9989%N.

Definition ready_line : list (jsval num) :=
  [str (check_mark :: lit " SMTP ready")].

Definition sent_line (id : jsval num) : list (jsval num) :=
  [str (check_mark :: lit " Test mail sent:"); id].

(** The message of lines 60-63: no default recipient, no Reply-To. *)
Definition testMessage (env : Env) : MailMessage num :=
  {| from := sender env;
     to := match LEADS_TO env with Some s => str s | None => None end;
     replyTo := None;
     subject := lit "SMTP test";
     text := Some (lit "Hello from the mail server.");
     html := None |}.

(** The body of the [try], lines 57-65. [verify] is the promise
    [tx.verify()] returns. *)
Definition attempt (env : Env) (verify : promise num (jsval num))
    (tx : Transport num) : prog unit :=
  andThen (wait verify) (fun _ =>
  andThen (console_log ready_line) (fun _ =>
  andThen (send tx (testMessage env)) (fun p =>
  andThen (wait p) (fun info =>
  andThen (evaluate (Index.member info (lit "messageId"))) (fun id =>
  console_log (sent_line id)))))).

(** Lines 56-68. *)
Definition script (env : Env) (verify : promise num (jsval num))
    (tx : Transport num) : prog unit :=
  tryCatch (attempt env verify tx) console_err.

(** How a run ends: the module finishes, an exception leaves it uncaught,
    or it waits for ever on a promise that never settles. *)
Inductive Ending : Type :=
| Finished (t : time)
| Escaped (e : exn num)
| Waiting.

(** What a run of the script leaves: its events in order, and its end. *)
Record Report : Type := {
  events : list Event;
  ending : Ending
}.

Definition execute (p : prog unit) : Report :=
  match p {| elapsed := 0%N; trace := [] |} with
  | (s, Return _) => {| events := trace s; ending := Finished (elapsed s) |}
  | (s, Raise e) => {| events := trace s; ending := Escaped e |}
  | (s, Pending) => {| events := trace s; ending := Waiting |}
  end.

End Script.
End SmtpTest.

Module SmtpCases.

(** [verify] succeeds after 20 ms. *)
Definition ready : promise NoNumber (jsval NoNumber) :=
  Some (20%N, Fulfilled (Some (JBool true))).

(** [verify] fails after 20 ms. *)
Definition unreachable : promise NoNumber (jsval NoNumber) :=
  Some (20%N, Rejected (Error (lit "connect ECONNREFUSED"))).

End SmtpCases.

(* ================================================================== *)
(** * Properties *)

Arguments lit : simpl never.

(* ------------------------------------------------------------------ *)
(** ** Strings *)

Lemma str_eqb_refl (s : jsstring) : str_eqb s s = true.
Proof.
  induction s as [|c s IH]; simpl; [reflexivity|].
  now rewrite N.eqb_refl, IH.
Qed.

Lemma str_eqb_eq (a b : jsstring) : str_eqb a b = true <-> a = b.
Proof.
  split; [|intros ->; apply str_eqb_refl].
  revert b; induction a as [|x a IH]; intros [|y b]; simpl; try discriminate; auto.
  intros H. apply andb_true_iff in H as [Hx Hab].
  apply N.eqb_eq in Hx. apply IH in Hab. congruence.
Qed.

Lemma includes_In (l : list jsstring) (s : jsstring) :
  includes l s = true <-> In s l.
Proof.
  unfold includes. rewrite existsb_exists. split.
  - intros (x & Hx & E). apply str_eqb_eq in E. now subst.
  - intros H. exists s. split; [assumption|apply str_eqb_refl].
Qed.

Lemma is_empty_nil (s : jsstring) : is_empty s = true <-> s = [].
Proof. destruct s; simpl; split; congruence. Qed.

(** [split] cuts at every separator and nowhere else. *)
Lemma split_not_nil (sep : jschar) (s : jsstring) : split sep s <> [].
Proof.
  induction s as [|c s IH]; simpl; [discriminate|].
  destruct (N.eqb c sep); [discriminate|].
  destruct (split sep s); [contradiction|discriminate].
Qed.

Lemma join_split (sep : jschar) (s : jsstring) : join [sep] (split sep s) = s.
Proof.
  induction s as [|c s IH]; simpl; [reflexivity|].
  destruct (N.eqb_spec c sep) as [->|Hne].
  - pose proof (split_not_nil sep s) as Hn.
    destruct (split sep s) as [|h t] eqn:E; [contradiction|].
    simpl. now rewrite <- IH.
  - pose proof (split_not_nil sep s) as Hn.
    destruct (split sep s) as [|h t] eqn:E; [contradiction|].
    destruct t as [|h' t]; simpl in *; now rewrite <- IH.
Qed.

Lemma split_pieces (sep : jschar) (s : jsstring) :
  Forall (fun piece => ~ In sep piece) (split sep s).
Proof.
  induction s as [|c s IH]; simpl.
  - constructor; [intros []|constructor].
  - destruct (N.eqb_spec c sep) as [->|Hne].
    + constructor; [intros []|assumption].
    + destruct (split sep s) as [|h t]; [repeat constructor; intros [?|[]]; congruence|].
      inversion IH; subst. constructor; [|assumption].
      intros [?|?]; [congruence|contradiction].
Qed.

(** [trim] removes a run of white space at each end and nothing else. *)
Lemma dropWhile_spec (p : jschar -> bool) (s : jsstring) :
  exists pre, s = pre ++ dropWhile p s
    /\ Forall (fun c => p c = true) pre
    /\ (forall c r, dropWhile p s = c :: r -> p c = false).
Proof.
  induction s as [|c s (pre & E & Hpre & Hhd)]; simpl.
  - exists []. repeat split; [constructor|discriminate].
  - destruct (p c) eqn:Hc.
    + exists (c :: pre). repeat split.
      * simpl. now f_equal.
      * now constructor.
      * assumption.
    + exists []. repeat split; [constructor|].
      intros c' r [= -> _]. assumption.
Qed.

Lemma trim_spec (s : jsstring) :
  exists pre post, s = pre ++ trim s ++ post
    /\ Forall (fun c => is_space c = true) pre
    /\ Forall (fun c => is_space c = true) post
    /\ (forall c r, trim s = c :: r -> is_space c = false)
    /\ (forall c r, trim s = r ++ [c] -> is_space c = false).
Proof.
  unfold trim.
  destruct (dropWhile_spec is_space s) as (pre & E1 & Hpre & _).
  destruct (dropWhile_spec is_space (rev (dropWhile is_space s)))
    as (post & E2 & Hpost & Hhd2).
  set (m := dropWhile is_space (rev (dropWhile is_space s))) in *.
  assert (Emid : dropWhile is_space s = rev m ++ rev post).
  { rewrite <- rev_app_distr, <- E2. now rewrite rev_involutive. }
  exists pre, (rev post). repeat split.
  - now rewrite <- Emid.
  - assumption.
  - apply Forall_rev. assumption.
  - intros c r Hr.
    destruct (dropWhile_spec is_space s) as (pre' & _ & _ & Hhd1).
    apply (Hhd1 c (r ++ rev post)). rewrite Emid, Hr. reflexivity.
  - intros c r Hr.
    apply (Hhd2 c (rev r)).
    rewrite <- (rev_involutive m), Hr, rev_app_distr. reflexivity.
Qed.

Lemma stripAngles_In (s : jsstring) (c : jschar) :
  In c (stripAngles s) <-> In c s /\ c <> ch "<" /\ c <> ch ">".
Proof.
  unfold stripAngles. rewrite filter_In. unfold is_angle.
  rewrite negb_true_iff, orb_false_iff, !N.eqb_neq. tauto.
Qed.

Lemma stripAngles_app (a b : jsstring) :
  stripAngles (a ++ b) = stripAngles a ++ stripAngles b.
Proof. unfold stripAngles. apply filter_app. Qed.

Lemma stripAngles_clean (s : jsstring) :
  ~ In (ch "<") s -> ~ In (ch ">") s -> stripAngles s = s.
Proof.
  intros Hl Hg. unfold stripAngles.
  induction s as [|c s IH]; simpl; [reflexivity|].
  unfold is_angle.
  destruct (N.eqb_spec c (ch "<")) as [->|_]; [exfalso; apply Hl; now left|].
  destruct (N.eqb_spec c (ch ">")) as [->|_]; [exfalso; apply Hg; now left|].
  simpl. f_equal. apply IH; intro; [apply Hl|apply Hg]; now right.
Qed.

(* ------------------------------------------------------------------ *)
(** ** Regular expressions: [matches] decides [Lang] *)

Lemma nullable_Lang (r : regex) : nullable r = true <-> Lang r [].
Proof.
  induction r as [| |p|r IHr s IHs|r IHr s IHs|r IHr]; simpl.
  - split; [discriminate|inversion 1].
  - split; [constructor|reflexivity].
  - split; [discriminate|inversion 1].
  - rewrite andb_true_iff, IHr, IHs. split.
    + intros [Hr Hs]. change (@nil jschar) with (@nil jschar ++ []).
      now constructor.
    + inversion 1 as [| |r' s' u v Hu Hv E1 E2| | | |]; subst.
      apply app_eq_nil in E2 as [-> ->]. now split.
  - rewrite orb_true_iff, IHr, IHs. split.
    + intros [H|H]; [now apply LAltL|now apply LAltR].
    + inversion 1; subst; [now left|now right].
  - split; [constructor|reflexivity].
Qed.

Lemma Lang_star_cons (r : regex) (c : jschar) (s : jsstring) :
  Lang (Star r) (c :: s) ->
  exists u v, s = u ++ v /\ Lang r (c :: u) /\ Lang (Star r) v.
Proof.
  intros H. remember (Star r) as q eqn:Eq. remember (c :: s) as w eqn:Ew.
  revert s Ew. induction H as [| | | | | |r' u v Hu _ Hv IHv]; try discriminate.
  injection Eq as ->. intros s Ew.
  destruct u as [|x u]; simpl in Ew.
  - subst v. apply IHv; reflexivity.
  - injection Ew as -> <-. exists u, v. now repeat split.
Qed.

Lemma deriv_Lang (c : jschar) (r : regex) (s : jsstring) :
  Lang (deriv c r) s <-> Lang r (c :: s).
Proof.
  revert s. induction r as [| |p|r IHr q IHq|r IHr q IHq|r IHr]; intros s; simpl.
  - split; inversion 1.
  - split; inversion 1.
  - destruct (p c) eqn:Hp; split.
    + inversion 1; subst. now constructor.
    + inversion 1; subst. constructor.
    + inversion 1.
    + inversion 1; subst. congruence.
  - assert (Hcat : Lang (Cat (deriv c r) q) s -> Lang (Cat r q) (c :: s)).
    { inversion 1 as [| |r' s' u v Hu Hv| | | |]; subst.
      apply IHr in Hu. change (c :: u ++ v) with ((c :: u) ++ v).
      now constructor. }
    assert (Hback : Lang (Cat r q) (c :: s) ->
                    Lang (Cat (deriv c r) q) s
                    \/ (nullable r = true /\ Lang (deriv c q) s)).
    { inversion 1 as [| |r' s' u v Hu Hv E1 E2| | | |]; subst.
      destruct u as [|x u]; simpl in E2.
      - subst v. right. split; [now apply nullable_Lang|now apply IHq].
      - injection E2 as -> <-. left. constructor; [now apply IHr|assumption]. }
    destruct (nullable r) eqn:Hn; split.
    + inversion 1; subst; [now apply Hcat|].
      change (c :: s) with ([] ++ c :: s). constructor.
      * now apply nullable_Lang.
      * now apply IHq.
    + intros H. destruct (Hback H) as [H'|[_ H']];
        [now apply LAltL|now apply LAltR].
    + apply Hcat.
    + intros H. destruct (Hback H) as [H'|[E _]]; [assumption|discriminate].
  - split.
    + inversion 1; subst; [apply LAltL; now apply IHr|apply LAltR; now apply IHq].
    + inversion 1; subst; [apply LAltL; now apply IHr|apply LAltR; now apply IHq].
  - split.
    + inversion 1 as [| |r' s' u v Hu Hv| | | |]; subst.
      apply IHr in Hu. change (c :: u ++ v) with ((c :: u) ++ v).
      now constructor.
    + intros H. apply Lang_star_cons in H as (u & v & -> & Hu & Hv).
      constructor; [now apply IHr|assumption].
Qed.

Theorem matches_Lang (r : regex) (s : jsstring) :
  matches r s = true <-> Lang r s.
Proof.
  revert r. induction s as [|c s IH]; intros r; simpl.
  - apply nullable_Lang.
  - rewrite IH. apply deriv_Lang.
Qed.

(** One or more characters of a class. *)
Lemma Lang_star_class (p : jschar -> bool) (s : jsstring) :
  Lang (Star (Class p)) s <-> Forall (fun c => p c = true) s.
Proof.
  split.
  - intros H. remember (Star (Class p)) as q eqn:Eq.
    induction H as [| | | | | |r u v Hu _ Hv IHv]; try discriminate.
    + constructor.
    + injection Eq as ->. inversion Hu; subst. simpl.
      constructor; [assumption|now apply IHv].
  - induction 1 as [|c s Hc _ IH]; [constructor|].
    change (c :: s) with ([c] ++ s). constructor; [now constructor|assumption].
Qed.

Lemma Lang_plus_class (p : jschar -> bool) (s : jsstring) :
  Lang (Plus (Class p)) s <-> s <> [] /\ Forall (fun c => p c = true) s.
Proof.
  unfold Plus. split.
  - inversion 1 as [| |r' s' u v Hu Hv| | | |]; subst.
    inversion Hu; subst. apply Lang_star_class in Hv. simpl.
    split; [discriminate|now constructor].
  - intros [Hne Hall]. destruct s as [|c s]; [contradiction|].
    inversion Hall; subst. change (c :: s) with ([c] ++ s).
    constructor; [now constructor|now apply Lang_star_class].
Qed.

Lemma Lang_char (x : jschar) (s : jsstring) :
  Lang (Class (N.eqb x)) s <-> s = [x].
Proof.
  split.
  - inversion 1; subst. f_equal. symmetry. now apply N.eqb_eq.
  - intros ->. constructor. apply N.eqb_refl.
Qed.

Theorem emailPattern_spec (s : jsstring) :
  matches emailPattern s = true <-> emailShape s.
Proof.
  rewrite matches_Lang. unfold emailPattern, emailShape. split.
  - inversion 1 as [| |? ? a r1 Ha H1| | | |]; subst.
    inversion H1 as [| |? ? at_ r2 Hat H2| | | |]; subst.
    inversion H2 as [| |? ? b r3 Hb H3| | | |]; subst.
    inversion H3 as [| |? ? dot c Hdot Hc| | | |]; subst.
    apply Lang_char in Hat, Hdot. subst.
    apply Lang_plus_class in Ha as [? ?], Hb as [? ?], Hc as [? ?].
    exists a, b, c. simpl. now repeat split.
  - intros (a & b & c & -> & Ha & Hb & Hc & Fa & Fb & Fc).
    constructor; [now apply Lang_plus_class|].
    change (ch "@" :: b ++ ch "." :: c) with ([ch "@"] ++ b ++ [ch "."] ++ c).
    constructor; [now apply Lang_char|].
    constructor; [now apply Lang_plus_class|].
    constructor; [now apply Lang_char|now apply Lang_plus_class].
Qed.

Lemma split_at_unique (x : jschar) (a0 r0 a d : jsstring) :
  a0 ++ x :: r0 = a ++ x :: d -> ~ In x a0 -> ~ In x r0 -> a = a0 /\ d = r0.
Proof.
  revert a. induction a0 as [|z a0 IH]; intros [|y a] E Ha Hr; simpl in E.
  - injection E as ->. now split.
  - injection E as <- ->. exfalso. apply Hr. apply in_elt.
  - injection E as -> _. exfalso. apply Ha. now left.
  - injection E as -> E. destruct (IH a E) as [-> ->];
      [intro; apply Ha; now right|assumption|now split].
Qed.

Lemma notSpaceAt_not_at (s : jsstring) :
  Forall (fun x => notSpaceAt x = true) s -> ~ In (ch "@") s.
Proof.
  intros H Hin. rewrite Forall_forall in H. specialize (H _ Hin).
  unfold notSpaceAt in H. rewrite N.eqb_refl, orb_true_r in H. discriminate.
Qed.

(** An accepted address holds an at-sign ... *)
Lemma email_has_at (s : jsstring) :
  matches emailPattern s = true -> In (ch "@") s.
Proof.
  intros H. apply emailPattern_spec in H as (a & b & c & -> & _).
  apply in_elt.
Qed.

(** ... exactly one, and a dot somewhere after it. *)
Lemma email_has_dot_after_at (s a d : jsstring) :
  matches emailPattern s = true -> s = a ++ ch "@" :: d -> In (ch ".") d.
Proof.
  intros H E. apply emailPattern_spec in H
    as (a0 & b & c & -> & _ & _ & _ & Fa & Fb & Fc).
  apply split_at_unique in E as [_ ->].
  - apply in_elt.
  - now apply notSpaceAt_not_at.
  - intros Hin. apply in_app_or in Hin as [Hin|[Hin|Hin]].
    + now apply (notSpaceAt_not_at Fb).
    + discriminate.
    + now apply (notSpaceAt_not_at Fc).
Qed.

Lemma email_rejects (s : jsstring) :
  ~ In (ch "@") s \/ (exists a d, s = a ++ ch "@" :: d /\ ~ In (ch ".") d) ->
  matches emailPattern s = false.
Proof.
  intros H. destruct (matches emailPattern s) eqn:E; [exfalso|reflexivity].
  destruct H as [H|(a & d & Es & H)].
  - apply H. now apply email_has_at.
  - apply H. now apply (email_has_dot_after_at a d E).
Qed.

(* ------------------------------------------------------------------ *)
(** ** The handlers, case by case *)

Section Runs.
Context {num : Type} {NumOps : JsNumber num}.
Variables (env : Env) (transporter : Transport num) (nowISO : jsstring).
Variable req_body : jsval num.

Let f := destructure req_body.

Lemma absent_is_missing :
  req_body = undefined \/ name f = undefined \/ email f = undefined
  \/ phone f = undefined \/ city f = undefined ->
  missingRequired f = true.
Proof.
  unfold missingRequired.
  intros [H|[H|[H|[H|H]]]].
  - subst f. rewrite H. reflexivity.
  - rewrite H. reflexivity.
  - rewrite H. simpl. now rewrite orb_true_r.
  - rewrite H. simpl. now rewrite !orb_true_r.
  - rewrite H. simpl. now rewrite !orb_true_r.
Qed.

Lemma Index_missing :
  missingRequired f = true ->
  run (Index.handler env transporter nowISO req_body)
  = rejected 400 (lit "MISSING_FIELDS").
Proof.
  intros H. unfold run, Index.handler, try_catch. fold f. rewrite H.
  reflexivity.
Qed.

Lemma Server_missing :
  missingRequired f = true ->
  run (Server.handler env transporter nowISO req_body)
  = rejected 400 (lit "MISSING_FIELDS").
Proof.
  intros H. unfold run, Server.handler, try_catch. fold f. rewrite H.
  reflexivity.
Qed.

End Runs.

Lemma leadText_ok {num : Type} {NumOps : JsNumber num}
    (f : Fields num) (nowISO txt : jsstring) :
  leadText f nowISO = Ok txt ->
  exists subj markup, leadSubject f = Ok subj /\ autoHtml f = Ok markup.
Proof.
  unfold leadText, leadSubject, autoHtml, messageCell, rbind.
  destruct (toStr (name f)) as [s_name|]; [|discriminate].
  destruct (toStr (email f)) as [s_email|]; [|discriminate].
  destruct (toStr (phone f)) as [s_phone|]; [|discriminate].
  destruct (toStr (city f)) as [s_city|]; [|discriminate].
  destruct (toStr (or_else (type f) (str [emdash]))) as [s_type|]; [|discriminate].
  unfold or_else.
  destruct (truthy (message f)).
  - destruct (toStr (message f)) as [s_message|]; [|discriminate].
    intros _. eauto.
  - intros _. eauto.
Qed.

Section ServerPaths.
Context {num : Type} {NumOps : JsNumber num}.
Variables (env : Env) (transporter : Transport num) (nowISO : jsstring).
Variable req_body : jsval num.

Let f := destructure req_body.

Ltac enter :=
  unfold run, Server.handler, try_catch, bind, lift; fold f.

Lemma Server_isEmail_throws (e : exn num) :
  missingRequired f = false ->
  isEmail (email f) = Throw e ->
  run (Server.handler env transporter nowISO req_body)
  = {| response := Some (0%N, failure (Server.code e) (lit "MAIL_SEND_FAILED"));
       sent := []; logged := [e] |}.
Proof. intros Hm He. enter. rewrite Hm, He. reflexivity. Qed.

Lemma Server_invalid :
  missingRequired f = false ->
  isEmail (email f) = Ok false ->
  run (Server.handler env transporter nowISO req_body)
  = rejected 400 (lit "INVALID_EMAIL").
Proof. intros Hm He. enter. rewrite Hm, He. reflexivity. Qed.

Lemma Server_disabled :
  missingRequired f = false ->
  isEmail (email f) = Ok true ->
  env_is (DISABLE_EMAIL env) (lit "true") = true ->
  run (Server.handler env transporter nowISO req_body)
  = {| response :=
         Some (0%N, respond 200 [ (lit "ok", Some (JBool true));
                                  (lit "note", str (lit "email disabled"));
                                  (lit "submittedAt", str nowISO) ]);
       sent := []; logged := [] |}.
Proof.
  intros Hm He Hd. enter. rewrite Hm, He. cbn [negb]. rewrite Hd. reflexivity.
Qed.

Lemma Server_text_throws (e : exn num) :
  missingRequired f = false ->
  isEmail (email f) = Ok true ->
  env_is (DISABLE_EMAIL env) (lit "true") = false ->
  leadText f nowISO = Throw e ->
  run (Server.handler env transporter nowISO req_body)
  = {| response := Some (0%N, failure (Server.code e) (lit "MAIL_SEND_FAILED"));
       sent := []; logged := [e] |}.
Proof.
  intros Hm He Hd Ht. enter. rewrite Hm, He. cbn [negb]. rewrite Hd, Ht.
  reflexivity.
Qed.

(** Once both messages are built, both sends are issued at once and the
    response is whatever the join of the two bounded sends comes to. *)
Lemma Server_built (txt subj markup : jsstring) :
  missingRequired f = false ->
  isEmail (email f) = Ok true ->
  env_is (DISABLE_EMAIL env) (lit "true") = false ->
  leadText f nowISO = Ok txt ->
  leadSubject f = Ok subj ->
  autoHtml f = Ok markup ->
  let m1 := leadMessage env f subj txt in
  let m2 := autoMessage env f markup in
  run (Server.handler env transporter nowISO req_body)
  = match all2 (race (transporter 0 m1) (Server.timer 0%N sendTimeout))
               (race (transporter 1 m2) (Server.timer 0%N sendTimeout)) with
    | Some (t, Fulfilled (internal, autoresp)) =>
        {| response :=
             Some (t, respond 200
               [ (lit "ok", Some (JBool true));
                 (lit "leadId",
                   or_else (Server.optMember internal (lit "messageId")) (Some JNull));
                 (lit "autoId",
                   or_else (Server.optMember autoresp (lit "messageId")) (Some JNull)) ]);
           sent := [(0%N, m1); (0%N, m2)];
           logged := [] |}
    | Some (t, Rejected e) =>
        {| response := Some (t, failure (Server.code e) (lit "MAIL_SEND_FAILED"));
           sent := [(0%N, m1); (0%N, m2)];
           logged := [e] |}
    | None =>
        {| response := None; sent := [(0%N, m1); (0%N, m2)]; logged := [] |}
    end.
Proof.
  intros Hm He Hd Ht Hs Hh m1 m2. enter.
  rewrite Hm, He. cbn [negb]. rewrite Hd, Ht, Hs.
  unfold sendMail at 1. cbn [boot outbox clock console List.length app].
  rewrite Hh.
  unfold sendMail at 1. cbn [boot outbox clock console List.length app].
  unfold Server.sendWithTimeout. cbn [boot outbox clock console List.length app].
  fold m1 m2.
  destruct (transporter 0 m1) as [[d1 [i1|e1]]|];
    destruct (transporter 1 m2) as [[d2 [i2|e2]]|];
    unfold all2, race, Server.timer, sendTimeout; rewrite ?N.add_0_l;
    repeat match goal with
           | |- context [N.leb ?a ?b] => destruct (N.leb a b)
           end;
    cbn [await boot outbox clock console ret console_error];
    rewrite ?N.max_0_l; reflexivity.
Qed.

(** The sends a request can leave behind: none, or both at instant 0. *)
Lemma Server_sent_cases :
  sent (run (Server.handler env transporter nowISO req_body)) = []
  \/ exists txt subj markup,
       leadText f nowISO = Ok txt /\ leadSubject f = Ok subj
       /\ autoHtml f = Ok markup
       /\ sent (run (Server.handler env transporter nowISO req_body))
          = [ (0%N, leadMessage env f subj txt);
              (0%N, autoMessage env f markup) ].
Proof.
  destruct (missingRequired f) eqn:Hm.
  { left. now rewrite Server_missing. }
  destruct (isEmail (email f)) as [[|]|e] eqn:He.
  2:{ left. now rewrite Server_invalid. }
  2:{ left. now rewrite (Server_isEmail_throws Hm He). }
  destruct (env_is (DISABLE_EMAIL env) (lit "true")) eqn:Hd.
  { left. now rewrite Server_disabled. }
  destruct (leadText f nowISO) as [txt|e] eqn:Ht.
  2:{ left. now rewrite (Server_text_throws Hm He Hd Ht). }
  destruct (leadText_ok _ _ Ht) as (subj & markup & Hs & Hh).
  right. exists txt, subj, markup. repeat split; try assumption.
  rewrite (Server_built Hm He Hd Ht Hs Hh).
  destruct (all2 _ _) as [[t [[i1 i2]|e]]|]; reflexivity.
Qed.

End ServerPaths.

Section IndexPaths.
Context {num : Type} {NumOps : JsNumber num}.
Variables (env : Env) (transporter : Transport num) (nowISO : jsstring).
Variable req_body : jsval num.

Let f := destructure req_body.

Ltac enter :=
  unfold run, Index.handler, try_catch, bind, lift; fold f.

Lemma Index_isEmail_throws (e : exn num) :
  missingRequired f = false ->
  isEmail (email f) = Throw e ->
  run (Index.handler env transporter nowISO req_body) = caught 0%N [] e.
Proof. intros Hm He. enter. rewrite Hm, He. reflexivity. Qed.

Lemma Index_invalid :
  missingRequired f = false ->
  isEmail (email f) = Ok false ->
  run (Index.handler env transporter nowISO req_body)
  = rejected 400 (lit "INVALID_EMAIL").
Proof. intros Hm He. enter. rewrite Hm, He. reflexivity. Qed.

Lemma Index_subject_throws (e : exn num) :
  missingRequired f = false ->
  isEmail (email f) = Ok true ->
  leadSubject f = Throw e ->
  run (Index.handler env transporter nowISO req_body) = caught 0%N [] e.
Proof.
  intros Hm He Hs. enter. rewrite Hm, He. cbn [negb]. rewrite Hs. reflexivity.
Qed.

Lemma Index_text_throws (subj : jsstring) (e : exn num) :
  missingRequired f = false ->
  isEmail (email f) = Ok true ->
  leadSubject f = Ok subj ->
  leadText f nowISO = Throw e ->
  run (Index.handler env transporter nowISO req_body) = caught 0%N [] e.
Proof.
  intros Hm He Hs Ht. enter. rewrite Hm, He. cbn [negb]. rewrite Hs, Ht.
  reflexivity.
Qed.

(** Once the lead notice is built it is sent and awaited; only then is the
    auto-reply sent and awaited in turn. *)
Lemma Index_built (txt subj markup : jsstring) :
  missingRequired f = false ->
  isEmail (email f) = Ok true ->
  leadText f nowISO = Ok txt ->
  leadSubject f = Ok subj ->
  autoHtml f = Ok markup ->
  let m1 := leadMessage env f subj txt in
  let m2 := autoMessage env f markup in
  run (Index.handler env transporter nowISO req_body)
  = match transporter 0 m1 with
    | None => {| response := None; sent := [(0%N, m1)]; logged := [] |}
    | Some (d1, Rejected e) => caught d1 [(0%N, m1)] e
    | Some (d1, Fulfilled internal) =>
        let out := [(0%N, m1); (d1, m2)] in
        match transporter 1 m2 with
        | None => {| response := None; sent := out; logged := [] |}
        | Some (d2, Rejected e) => caught (d1 + d2)%N out e
        | Some (d2, Fulfilled autoresp) =>
            match Index.member internal (lit "messageId"),
                  Index.member autoresp (lit "messageId") with
            | Ok leadId, Ok autoId =>
                {| response :=
                     Some ((d1 + d2)%N,
                           respond 200 [ (lit "ok", Some (JBool true));
                                         (lit "leadId", leadId);
                                         (lit "autoId", autoId) ]);
                   sent := out; logged := [] |}
            | Throw e, _ => caught (d1 + d2)%N out e
            | Ok _, Throw e => caught (d1 + d2)%N out e
            end
        end
    end.
Proof.
  intros Hm He Ht Hs Hh m1 m2. enter.
  rewrite Hm, He. cbn [negb]. rewrite Hs, Ht.
  unfold sendMail at 1. cbn [boot outbox clock console List.length app].
  fold m1.
  destruct (transporter 0 m1) as [[d1 [i1|e1]]|];
    cbn [await boot outbox clock console ret console_error];
    rewrite ?N.add_0_l, ?N.max_0_l; try reflexivity.
  rewrite Hh.
  unfold sendMail at 1. cbn [boot outbox clock console List.length app].
  fold m2.
  destruct (transporter 1 m2) as [[d2 [i2|e2]]|];
    cbn [await boot outbox clock console ret console_error];
    try reflexivity;
    replace (N.max d1 (d1 + d2)) with (d1 + d2)%N by lia.
  - destruct (Index.member i1 (lit "messageId")) as [leadId|e]; [|reflexivity].
    destruct (Index.member i2 (lit "messageId")) as [autoId|e]; reflexivity.
  - reflexivity.
Qed.

(** The sends a request can leave behind: none, the lead notice alone, or
    the lead notice and, once that one is delivered, the auto-reply. *)
Lemma Index_sent_cases :
  sent (run (Index.handler env transporter nowISO req_body)) = []
  \/ exists txt subj markup,
       leadText f nowISO = Ok txt /\ leadSubject f = Ok subj
       /\ autoHtml f = Ok markup
       /\ (sent (run (Index.handler env transporter nowISO req_body))
             = [ (0%N, leadMessage env f subj txt) ]
           \/ exists d1,
               sent (run (Index.handler env transporter nowISO req_body))
               = [ (0%N, leadMessage env f subj txt);
                   (d1, autoMessage env f markup) ]).
Proof.
  destruct (missingRequired f) eqn:Hm.
  { left. now rewrite Index_missing. }
  destruct (isEmail (email f)) as [[|]|e] eqn:He.
  2:{ left. now rewrite Index_invalid. }
  2:{ left. now rewrite (Index_isEmail_throws Hm He). }
  destruct (leadSubject f) as [subj|e] eqn:Hs.
  2:{ left. now rewrite (Index_subject_throws Hm He Hs). }
  destruct (leadText f nowISO) as [txt|e] eqn:Ht.
  2:{ left. now rewrite (Index_text_throws Hm He Hs Ht). }
  destruct (leadText_ok _ _ Ht) as (subj' & markup & Hs' & Hh).
  right. exists txt, subj, markup. repeat split; try assumption.
  rewrite (Index_built Hm He Ht Hs Hh).
  destruct (transporter 0 _) as [[d1 [i1|e1]]|]; try (now left).
  right. exists d1.
  destruct (transporter 1 _) as [[d2 [i2|e2]]|]; try reflexivity.
  destruct (Index.member i1 _); [|reflexivity].
  destruct (Index.member i2 _); reflexivity.
Qed.

End IndexPaths.

(* ------------------------------------------------------------------ *)
(** ** Validation *)

Lemma present_fields {num : Type} {NumOps : JsNumber num} (f : Fields num) :
  missingRequired f = false ->
  truthy (name f) = true /\ truthy (email f) = true
  /\ truthy (phone f) = true /\ truthy (city f) = true.
Proof.
  unfold missingRequired. rewrite !orb_false_iff, !negb_false_iff. tauto.
Qed.

Lemma isEmail_of_string {num : Type} {NumOps : JsNumber num}
    (v : jsval num) (s : jsstring) :
  truthy v = true -> toStr v = Ok s ->
  isEmail v = Ok (matches emailPattern s).
Proof.
  intros Hv Hs. unfold isEmail.
  destruct v as [j|]; [|discriminate]. now rewrite Hs.
Qed.

(** C1. A request that lacks any of name, email, phone or city -- one with
    no body lacks all four -- is answered 400 MISSING_FIELDS at once by both
    handlers, with no send issued (and nothing logged). *)
Theorem missing_fields_rejected_before_any_send
    (num : Type) (NumOps : JsNumber num)
    (env : Env) (transporter : Transport num) (nowISO : jsstring)
    (req_body : jsval num) :
  req_body = undefined
  \/ name (destructure req_body) = undefined
  \/ email (destructure req_body) = undefined
  \/ phone (destructure req_body) = undefined
  \/ city (destructure req_body) = undefined ->
  run (Index.handler env transporter nowISO req_body)
    = rejected 400 (lit "MISSING_FIELDS")
  /\ run (Server.handler env transporter nowISO req_body)
    = rejected 400 (lit "MISSING_FIELDS").
Proof.
  intros H. apply absent_is_missing in H.
  split; [now apply Index_missing|now apply Server_missing].
Qed.

Lemma missing_fields_rejected_witness :
  city (destructure Examples.request_no_city) = undefined
  /\ run (Index.handler Examples.env (Examples.relay (lit "id-1") (lit "id-2"))
            Examples.now Examples.request_no_city)
     = rejected 400 (lit "MISSING_FIELDS")
  /\ run (Server.handler Examples.env (Examples.relay (lit "id-1") (lit "id-2"))
            Examples.now Examples.request_no_city)
     = rejected 400 (lit "MISSING_FIELDS").
Proof.
  split; [reflexivity|].
  apply missing_fields_rejected_before_any_send.
  right; right; right; right. reflexivity.
Defined.

(** X29. When the four required fields are present and the email value has
    a string form that holds no at-sign, or holds one with no dot after it,
    both handlers answer 400 INVALID_EMAIL at once, with no send issued. *)
Theorem invalid_email_rejected
    (num : Type) (NumOps : JsNumber num)
    (env : Env) (transporter : Transport num) (nowISO : jsstring)
    (req_body : jsval num) (s : jsstring) :
  missingRequired (destructure req_body) = false ->
  toStr (email (destructure req_body)) = Ok s ->
  (~ In (ch "@") s
   \/ exists local domain, s = local ++ ch "@" :: domain /\ ~ In (ch ".") domain) ->
  run (Index.handler env transporter nowISO req_body)
    = rejected 400 (lit "INVALID_EMAIL")
  /\ run (Server.handler env transporter nowISO req_body)
    = rejected 400 (lit "INVALID_EMAIL").
Proof.
  intros Hm Hs Hbad.
  assert (He : isEmail (email (destructure req_body)) = Ok false).
  { rewrite (isEmail_of_string _ (proj1 (proj2 (present_fields _ Hm))) Hs).
    now rewrite (email_rejects Hbad). }
  split; [now apply Index_invalid|now apply Server_invalid].
Qed.

Lemma invalid_email_rejected_witness :
  run (Index.handler Examples.env (Examples.relay (lit "id-1") (lit "id-2"))
         Examples.now Examples.request_bad_email)
    = rejected 400 (lit "INVALID_EMAIL")
  /\ run (Server.handler Examples.env (Examples.relay (lit "id-1") (lit "id-2"))
         Examples.now Examples.request_bad_email)
    = rejected 400 (lit "INVALID_EMAIL").
Proof.
  apply (@invalid_email_rejected NoNumber JsNumber_NoNumber Examples.env
           (Examples.relay (lit "id-1") (lit "id-2")) Examples.now
           Examples.request_bad_email (lit "al.example.com")).
  - reflexivity.
  - reflexivity.
  - left. vm_compute. intros H.
    repeat (destruct H as [H|H]; [discriminate H|]). exact H.
Defined.

(** C5, run on a request whose four required fields are present and whose
    email is the object {toString: null}: a value with no at-sign in it, and
    with no string form at all. The pattern test of isEmail throws while
    converting it, the throw lands in the handler's catch, and the request is
    answered as a mail failure -- 500 by index.js, 502 by part_000, the
    TypeError logged, nothing sent -- where 400 INVALID_EMAIL is asked for. *)
Theorem object_email_answers_mail_failure :
  missingRequired (destructure Cases.request_object_email) = false
  /\ email (destructure Cases.request_object_email)
     = Some (JObj [(lit "toString", JNull)])
  /\ isEmail (email (destructure Cases.request_object_email))
     = Throw TypeError_toPrimitive
  /\ run (Index.handler Examples.env (Examples.relay (lit "id-1") (lit "id-2"))
            Examples.now Cases.request_object_email)
     = {| response := Some (0%N, failure 500 (lit "MAIL_SEND_FAILED"));
          sent := [];
          logged := [TypeError_toPrimitive] |}
  /\ run (Server.handler Examples.env (Examples.relay (lit "id-1") (lit "id-2"))
            Examples.now Cases.request_object_email)
     = {| response := Some (0%N, failure 502 (lit "MAIL_SEND_FAILED"));
          sent := [];
          logged := [TypeError_toPrimitive] |}
  /\ run (Index.handler Examples.env (Examples.relay (lit "id-1") (lit "id-2"))
            Examples.now Cases.request_object_email)
     <> rejected 400 (lit "INVALID_EMAIL")
  /\ run (Server.handler Examples.env (Examples.relay (lit "id-1") (lit "id-2"))
            Examples.now Cases.request_object_email)
     <> rejected 400 (lit "INVALID_EMAIL").
Proof.
  assert (Hm : missingRequired (destructure Cases.request_object_email) = false)
    by reflexivity.
  assert (He : isEmail (email (destructure Cases.request_object_email))
               = Throw (TypeError_toPrimitive (num:=NoNumber)))
    by reflexivity.
  split; [exact Hm|]. split; [reflexivity|]. split; [exact He|].
  rewrite (Index_isEmail_throws Examples.env
             (Examples.relay (lit "id-1") (lit "id-2")) Examples.now
             Cases.request_object_email Hm He).
  rewrite (Server_isEmail_throws Examples.env
             (Examples.relay (lit "id-1") (lit "id-2")) Examples.now
             Cases.request_object_email Hm He).
  split; [reflexivity|]. split; [reflexivity|].
  split; intros H; apply (f_equal response) in H; vm_compute in H;
    discriminate H.
Qed.

(* ------------------------------------------------------------------ *)
(** ** CORS *)

Lemma allowList_spec (env : Env) (o : jsstring) :
  In o (allowList env)
  <-> o <> []
      /\ exists piece,
           In piece (split (ch ",") (env_or (ALLOWED_ORIGIN env) []))
           /\ o = trim piece.
Proof.
  unfold allowList. rewrite filter_In, in_map_iff, negb_true_iff.
  split.
  - intros [(piece & <- & Hin) Hne]. split.
    + intros E. rewrite E in Hne. discriminate.
    + now exists piece.
  - intros [Hne (piece & Hin & ->)]. split.
    + now exists piece.
    + destruct (trim piece); [contradiction|reflexivity].
Qed.

(** C8, as the code has it. The origin callback lets a request through
    exactly when it carries no Origin header, an empty one, or one equal to
    an entry of the allow-list; every other request fails with the CORS
    error naming its origin. The allow-list is made of the comma-separated
    pieces of ALLOWED_ORIGIN, trimmed, the empty ones dropped. *)
Theorem cors_origin_decision (env : Env) (origin : option jsstring) :
  (corsOrigin env origin = CorsAllow
   <-> origin = None \/ origin = Some []
       \/ exists o, origin = Some o /\ In o (allowList env))
  /\ (corsOrigin env origin = CorsAllow
      \/ exists o, origin = Some o
           /\ corsOrigin env origin
              = CorsError (lit "CORS blocked from origin: " ++ o))
  /\ (forall o, In o (allowList env)
      <-> o <> []
          /\ exists piece,
               In piece (split (ch ",") (env_or (ALLOWED_ORIGIN env) []))
               /\ o = trim piece).
Proof.
  split; [|split; [|apply allowList_spec]].
  - unfold corsOrigin. destruct origin as [o|].
    + destruct o as [|c o]; simpl.
      * split; auto.
      * destruct (includes (allowList env) (c :: o)) eqn:E.
        -- apply includes_In in E. split; eauto.
        -- split; [discriminate|].
           intros [H|[H|(o' & [= <-] & H)]]; try discriminate.
           apply includes_In in H. congruence.
    + split; auto.
  - unfold corsOrigin. destruct origin as [o|]; [|now left].
    destruct (is_empty o || includes (allowList env) o); [now left|].
    right. now exists o.
Qed.

(** C8, as the specification words it, fails on a request whose Origin header is
    present but empty: it is let through although the allow-list never
    holds the empty string. *)
Lemma cors_empty_origin_counterexample :
  ~ (corsOrigin Examples.env (Some []) = CorsAllow
     <-> Some [] = @None jsstring
         \/ exists o, Some [] = Some o /\ In o (allowList Examples.env)).
Proof.
  intros [H _]. destruct (H eq_refl) as [E|(o & [= <-] & Hin)].
  - discriminate E.
  - apply allowList_spec in Hin as [Hne _]. now apply Hne.
Qed.

Example cors_listed_origin :
  corsOrigin Examples.env (Some (lit "https://www.patioblindsdirect.com"))
  = CorsAllow.
Proof. reflexivity. Qed.

Example cors_unlisted_origin :
  corsOrigin Examples.env (Some (lit "https://evil.example"))
  = CorsError (lit "CORS blocked from origin: https://evil.example").
Proof. reflexivity. Qed.

(* ------------------------------------------------------------------ *)
(** ** The auto-reply *)

Section AutoReply.
Context {num : Type} {NumOps : JsNumber num}.
Variables (env : Env) (transporter : Transport num) (nowISO : jsstring).
Variable req_body : jsval num.

Let f := destructure req_body.

Lemma autoHtml_shape (h : jsstring) :
  autoHtml f = Ok h ->
  exists s_name s_phone s_city s_type cell,
    toStr (name f) = Ok s_name
    /\ toStr (phone f) = Ok s_phone
    /\ toStr (city f) = Ok s_city
    /\ toStr (or_else (type f) (str [emdash])) = Ok s_type
    /\ messageCell f = Ok cell
    /\ h = html_open ++ s_name ++ html_after_name ++ s_phone
           ++ html_after_phone ++ s_city ++ html_after_city ++ s_type
           ++ html_after_type ++ cell ++ html_close.
Proof.
  unfold autoHtml, rbind.
  destruct (toStr (name f)) as [s_name|]; [|discriminate].
  destruct (toStr (phone f)) as [s_phone|]; [|discriminate].
  destruct (toStr (city f)) as [s_city|]; [|discriminate].
  destruct (toStr (or_else (type f) (str [emdash]))) as [s_type|]; [|discriminate].
  destruct (messageCell f) as [cell|]; [|discriminate].
  intros [= <-]. exists s_name, s_phone, s_city, s_type, cell.
  repeat split; reflexivity.
Qed.

Lemma messageCell_present (cell : jsstring) :
  truthy (message f) = true ->
  messageCell f = Ok cell ->
  exists s, toStr (message f) = Ok s /\ cell = stripAngles s.
Proof.
  unfold messageCell, rbind. intros ->.
  destruct (toStr (message f)) as [s|]; [|discriminate].
  intros [= <-]. now exists s.
Qed.

(** Whatever either handler sends with an HTML body is the auto-reply of
    this request. *)
Lemma sent_html (t : time) (m : MailMessage num) (h : jsstring) :
  In (t, m) (sent (run (Index.handler env transporter nowISO req_body)))
  \/ In (t, m) (sent (run (Server.handler env transporter nowISO req_body))) ->
  html m = Some h ->
  autoHtml f = Ok h.
Proof.
  intros [Hin|Hin] Hh.
  - destruct (Index_sent_cases env transporter nowISO req_body)
      as [E|(txt & subj & markup & _ & _ & Hm & [E|(d1 & E)])];
      rewrite E in Hin; simpl in Hin.
    + contradiction.
    + destruct Hin as [[= _ <-]|[]]. discriminate Hh.
    + destruct Hin as [[= _ <-]|[[= _ <-]|[]]]; [discriminate Hh|].
      simpl in Hh. fold f in Hm. congruence.
  - destruct (Server_sent_cases env transporter nowISO req_body)
      as [E|(txt & subj & markup & _ & _ & Hm & E)];
      rewrite E in Hin; simpl in Hin.
    + contradiction.
    + destruct Hin as [[= _ <-]|[[= _ <-]|[]]]; [discriminate Hh|].
      simpl in Hh. fold f in Hm. congruence.
Qed.

End AutoReply.

Lemma prefixOf_app (p rest : jsstring) : prefixOf p (p ++ rest) = true.
Proof.
  induction p as [|x p IH]; [reflexivity|].
  simpl. now rewrite N.eqb_refl, IH.
Qed.

Lemma prefixOf_spec (p s : jsstring) :
  prefixOf p s = true <-> exists rest, s = p ++ rest.
Proof.
  split.
  - revert s. induction p as [|x p IH]; intros s H.
    + now exists s.
    + destruct s as [|y s]; [discriminate H|].
      simpl in H. apply andb_true_iff in H as [Hxy Hp].
      apply N.eqb_eq in Hxy. subst y.
      destruct (IH _ Hp) as (rest & ->). now exists rest.
  - intros (rest & ->). apply prefixOf_app.
Qed.

Lemma contains_unfold (needle hay : jsstring) :
  contains needle hay
  = prefixOf needle hay
    || match hay with
       | [] => false
       | _ :: rest => contains needle rest
       end.
Proof. destruct hay; reflexivity. Qed.

(** [contains] is the substring test. *)
Lemma contains_spec (needle hay : jsstring) :
  contains needle hay = true
  <-> exists before rest, hay = before ++ needle ++ rest.
Proof.
  split.
  - induction hay as [|c hay IH]; rewrite contains_unfold; intros H;
      apply orb_true_iff in H as [H|H].
    + apply prefixOf_spec in H as (rest & ->). now exists [], rest.
    + discriminate H.
    + apply prefixOf_spec in H as (rest & ->). now exists [], rest.
    + destruct (IH H) as (before & rest & ->). now exists (c :: before), rest.
  - intros (before & rest & ->).
    induction before as [|c before IH].
    + rewrite contains_unfold. simpl app. now rewrite prefixOf_app.
    + simpl app. rewrite contains_unfold. cbv iota. rewrite IH.
      apply orb_true_r.
Qed.

(** C9, as the code has it. Take a request that passes validation, whose
    fields have a string form, and whose message is truthy. The HTML body the
    handlers build for its auto-reply is the template with, between
    "Message: " and the closing of the paragraph, the text of the message with
    every less-than and greater-than sign deleted and nothing else changed; so
    that body contains the stripped text. The auto-reply with that body is
    sent: by part_000 at once, next to the lead notice, when mail is enabled;
    by index.js as soon as the lead notice has been delivered. And no other
    message with an HTML body is ever sent for the request. *)
Theorem autoreply_carries_the_stripped_message
    (num : Type) (NumOps : JsNumber num)
    (env : Env) (transporter : Transport num) (nowISO : jsstring)
    (req_body : jsval num) (txt subj : jsstring) :
  missingRequired (destructure req_body) = false ->
  isEmail (email (destructure req_body)) = Ok true ->
  leadText (destructure req_body) nowISO = Ok txt ->
  leadSubject (destructure req_body) = Ok subj ->
  truthy (message (destructure req_body)) = true ->
  exists s before markup,
    toStr (message (destructure req_body)) = Ok s
    /\ markup = before ++ html_after_type ++ stripAngles s ++ html_close
    /\ autoHtml (destructure req_body) = Ok markup
    /\ contains (stripAngles s) markup = true
    /\ ~ In (ch "<") (stripAngles s)
    /\ ~ In (ch ">") (stripAngles s)
    /\ (forall c, c <> ch "<" -> c <> ch ">" ->
          (In c (stripAngles s) <-> In c s))
    /\ (env_is (DISABLE_EMAIL env) (lit "true") = false ->
        sent (run (Server.handler env transporter nowISO req_body))
        = [ (0%N, leadMessage env (destructure req_body) subj txt);
            (0%N, autoMessage env (destructure req_body) markup) ])
    /\ (forall d1 internal,
          transporter 0 (leadMessage env (destructure req_body) subj txt)
          = Some (d1, Fulfilled internal) ->
          sent (run (Index.handler env transporter nowISO req_body))
          = [ (0%N, leadMessage env (destructure req_body) subj txt);
              (d1, autoMessage env (destructure req_body) markup) ])
    /\ (forall t m h,
          In (t, m) (sent (run (Index.handler env transporter nowISO req_body)))
          \/ In (t, m)
               (sent (run (Server.handler env transporter nowISO req_body))) ->
          html m = Some h -> h = markup).
Proof.
  intros Hm He Ht Hs Hmsg.
  destruct (leadText_ok _ _ Ht) as (subj' & markup & _ & Hh).
  destruct (autoHtml_shape _ Hh)
    as (s_name & s_phone & s_city & s_type & cell & _ & _ & _ & _ & Hc & Hmk).
  apply (messageCell_present _ Hmsg) in Hc as (s & Hstr & ->).
  exists s, (html_open ++ s_name ++ html_after_name ++ s_phone
               ++ html_after_phone ++ s_city ++ html_after_city ++ s_type),
    markup.
  assert (Eq : markup
               = (html_open ++ s_name ++ html_after_name ++ s_phone
                    ++ html_after_phone ++ s_city ++ html_after_city ++ s_type)
                 ++ html_after_type ++ stripAngles s ++ html_close).
  { rewrite Hmk. now rewrite <- !app_assoc. }
  split; [exact Hstr|]. split; [exact Eq|]. split; [exact Hh|].
  split.
  { apply contains_spec. rewrite Eq.
    exists ((html_open ++ s_name ++ html_after_name ++ s_phone
               ++ html_after_phone ++ s_city ++ html_after_city ++ s_type)
            ++ html_after_type), html_close.
    now rewrite <- !app_assoc. }
  split; [intros H; apply stripAngles_In in H; tauto|].
  split; [intros H; apply stripAngles_In in H; tauto|].
  split; [intros c Hl Hg; rewrite stripAngles_In; tauto|].
  split; [|split].
  - intros Hd.
    rewrite (Server_built env transporter nowISO req_body Hm He Hd Ht Hs Hh).
    destruct (all2 _ _) as [[t [[i1 i2]|e]]|]; reflexivity.
  - intros d1 internal H1.
    rewrite (Index_built env transporter nowISO req_body Hm He Ht Hs Hh).
    cbv zeta. rewrite H1.
    destruct (transporter 1 _) as [[d2 [i2|e2]]|]; try reflexivity.
    destruct (Index.member internal _); [|reflexivity].
    destruct (Index.member i2 _); reflexivity.
  - intros t m h Hin Hhtml.
    pose proof (sent_html _ _ _ _ _ _ Hin Hhtml) as Hh'.
    congruence.
Qed.

Lemma autoreply_carries_witness :
  exists s before markup,
    toStr (message (destructure Examples.request)) = Ok s
    /\ markup = before ++ html_after_type ++ stripAngles s ++ html_close
    /\ contains (stripAngles s) markup = true
    /\ sent (run (Server.handler Examples.env
                    (Examples.relay (lit "id-1") (lit "id-2"))
                    Examples.now Examples.request))
       = [ (0%N, Cases.lead_message);
           (0%N, autoMessage Examples.env (destructure Examples.request)
                   markup) ]
    /\ sent (run (Index.handler Examples.env
                    (Examples.relay (lit "id-1") (lit "id-2"))
                    Examples.now Examples.request))
       = [ (0%N, Cases.lead_message);
           (100%N, autoMessage Examples.env (destructure Examples.request)
                     markup) ].
Proof.
  destruct (@autoreply_carries_the_stripped_message NoNumber JsNumber_NoNumber
              Examples.env (Examples.relay (lit "id-1") (lit "id-2"))
              Examples.now Examples.request _ _
              eq_refl eq_refl eq_refl eq_refl eq_refl)
    as (s & before & markup & Hs & Hmk & _ & Hc & _ & _ & _ & HS & HI & _).
  exists s, before, markup.
  split; [exact Hs|]. split; [exact Hmk|]. split; [exact Hc|].
  split; [exact (HS eq_refl)|exact (HI 100%N _ eq_refl)].
Defined.

(** C9 as the specification words it does not hold of every message that is
    present. The Message cell is filled from the message only when the
    message is truthy. A request whose message is [false] passes validation
    and gets its auto-reply from both handlers; the text of that message is
    "false", with no angle bracket in it, and the HTML body does not contain
    it: the cell shows a dash. A message that is the empty string is shown as
    a dash as well. *)
Lemma false_message_counterexample :
  message (destructure Cases.request_false_message) = Some (JBool false)
  /\ missingRequired (destructure Cases.request_false_message) = false
  /\ isEmail (email (destructure Cases.request_false_message)) = Ok true
  /\ toStr (message (destructure Cases.request_false_message))
     = Ok (lit "false")
  /\ stripAngles (lit "false") = lit "false"
  /\ In (0%N, autoMessage Examples.env
                (destructure Cases.request_false_message)
                (Examples.autoreply_html Cases.request_false_message))
        (sent (run (Server.handler Examples.env
                      (Examples.relay (lit "id-1") (lit "id-2"))
                      Examples.now Cases.request_false_message)))
  /\ In (100%N, autoMessage Examples.env
                  (destructure Cases.request_false_message)
                  (Examples.autoreply_html Cases.request_false_message))
        (sent (run (Index.handler Examples.env
                      (Examples.relay (lit "id-1") (lit "id-2"))
                      Examples.now Cases.request_false_message)))
  /\ contains (lit "false")
       (Examples.autoreply_html Cases.request_false_message) = false
  /\ ~ (exists before rest,
          Examples.autoreply_html Cases.request_false_message
          = before ++ lit "false" ++ rest)
  /\ messageCell (destructure Cases.request_false_message) = Ok [emdash]
  /\ message (destructure Cases.request_empty_message) = Some (JStr [])
  /\ messageCell (destructure Cases.request_empty_message) = Ok [emdash].
Proof.
  split; [reflexivity|]. split; [reflexivity|]. split; [reflexivity|].
  split; [reflexivity|]. split; [reflexivity|].
  split; [vm_compute; right; left; reflexivity|].
  split; [vm_compute; right; left; reflexivity|].
  split; [vm_compute; reflexivity|].
  split.
  { intros H. apply contains_spec in H. vm_compute in H. discriminate H. }
  split; [reflexivity|]. split; reflexivity.
Qed.

Example autoreply_message_cell :
  messageCell (destructure Examples.request) = Ok (lit "bhi/b").
Proof. reflexivity. Qed.

(** C10. Only the message is sanitized. In the HTML body of every
    auto-reply either handler sends, the name, phone, city and type stand
    exactly as their string conversion gives them, between the fixed
    stretches of the template; and there is a valid request -- its name is
    "<i>Al</i>" -- whose auto-reply carries those angle brackets unchanged
    right after "Thanks, ". *)
Theorem only_message_is_sanitized :
  (forall (num : Type) (NumOps : JsNumber num)
          (env : Env) (transporter : Transport num) (nowISO : jsstring)
          (req_body : jsval num)
          (t : time) (m : MailMessage num) (h : jsstring),
      In (t, m) (sent (run (Index.handler env transporter nowISO req_body)))
      \/ In (t, m) (sent (run (Server.handler env transporter nowISO req_body))) ->
      html m = Some h ->
      exists s_name s_phone s_city s_type cell,
        toStr (name (destructure req_body)) = Ok s_name
        /\ toStr (phone (destructure req_body)) = Ok s_phone
        /\ toStr (city (destructure req_body)) = Ok s_city
        /\ toStr (or_else (type (destructure req_body)) (str [emdash]))
           = Ok s_type
        /\ messageCell (destructure req_body) = Ok cell
        /\ h = html_open ++ s_name ++ html_after_name ++ s_phone
               ++ html_after_phone ++ s_city ++ html_after_city ++ s_type
               ++ html_after_type ++ cell ++ html_close)
  /\ (exists (m : MailMessage NoNumber) (rest : jsstring),
        missingRequired (destructure Examples.request_markup_name) = false
        /\ isEmail (email (destructure Examples.request_markup_name)) = Ok true
        /\ name (destructure Examples.request_markup_name)
           = str (lit "<i>Al</i>")
        /\ In (100%N, m)
             (sent (run (Index.handler Examples.env
                           (Examples.relay (lit "id-1") (lit "id-2"))
                           Examples.now Examples.request_markup_name)))
        /\ In (0%N, m)
             (sent (run (Server.handler Examples.env
                           (Examples.relay (lit "id-1") (lit "id-2"))
                           Examples.now Examples.request_markup_name)))
        /\ html m = Some (html_open ++ lit "<i>Al</i>" ++ rest)
        /\ In (ch "<") (lit "<i>Al</i>")
        /\ In (ch ">") (lit "<i>Al</i>")).
Proof.
  split.
  - intros num NumOps env transporter nowISO req_body t m h Hin Hh.
    apply (sent_html _ _ _ _ _ _ Hin) in Hh.
    now apply autoHtml_shape.
  - exists
      (autoMessage Examples.env (destructure Examples.request_markup_name)
         (Examples.autoreply_html Examples.request_markup_name)).
    eexists.
    split; [reflexivity|]. split; [reflexivity|]. split; [reflexivity|].
    split; [vm_compute; right; left; reflexivity|].
    split; [vm_compute; right; left; reflexivity|].
    split; [vm_compute; reflexivity|].
    split; vm_compute; auto 10.
Qed.

Lemma only_message_is_sanitized_witness :
  exists s_name s_phone s_city s_type cell,
    toStr (name (destructure Examples.request_markup_name)) = Ok s_name
    /\ toStr (phone (destructure Examples.request_markup_name)) = Ok s_phone
    /\ toStr (city (destructure Examples.request_markup_name)) = Ok s_city
    /\ toStr (or_else (type (destructure Examples.request_markup_name))
                (str [emdash])) = Ok s_type
    /\ messageCell (destructure Examples.request_markup_name) = Ok cell
    /\ Examples.autoreply_html Examples.request_markup_name
       = html_open ++ s_name ++ html_after_name ++ s_phone
         ++ html_after_phone ++ s_city ++ html_after_city ++ s_type
         ++ html_after_type ++ cell ++ html_close.
Proof.
  apply (proj1 only_message_is_sanitized NoNumber JsNumber_NoNumber Examples.env
           (Examples.relay (lit "id-1") (lit "id-2")) Examples.now
           Examples.request_markup_name 0%N
           (autoMessage Examples.env
              (destructure Examples.request_markup_name)
              (Examples.autoreply_html Examples.request_markup_name))).
  - right. vm_compute. right. left. reflexivity.
  - reflexivity.
Defined.

(* ------------------------------------------------------------------ *)
(** ** Success *)

Lemma reported_identifier {num : Type} {NumOps : JsNumber num}
    (info : list (jsstring * json num)) (id : jsstring) :
  assoc (lit "messageId") info = str id -> id <> [] ->
  Index.member (Some (JObj info)) (lit "messageId") = Ok (str id)
  /\ or_else (Server.optMember (Some (JObj info)) (lit "messageId")) (Some JNull)
     = str id.
Proof.
  intros Hid Hne. unfold Index.member, Server.optMember, prop, or_else.
  rewrite Hid. split; [reflexivity|].
  destruct id; [contradiction|reflexivity].
Qed.

(** C7, as the code has it. When a well-formed request has both its sends
    delivered and the relay reports a non-empty identifier for each, both
    handlers answer 200 with {ok:true, leadId, autoId}, leadId being the
    identifier reported for the lead notice and autoId the one reported for
    the auto-reply: index.js once the two sends have run one after the other,
    part_000 (mail enabled, each send within its timeout) when the slower of
    the two is done. *)
Theorem success_reports_relay_identifiers
    (num : Type) (NumOps : JsNumber num)
    (env : Env) (transporter : Transport num) (nowISO : jsstring)
    (req_body : jsval num)
    (txt subj markup : jsstring) (d1 d2 : time)
    (info1 info2 : list (jsstring * json num)) (id1 id2 : jsstring) :
  missingRequired (destructure req_body) = false ->
  isEmail (email (destructure req_body)) = Ok true ->
  leadText (destructure req_body) nowISO = Ok txt ->
  leadSubject (destructure req_body) = Ok subj ->
  autoHtml (destructure req_body) = Ok markup ->
  transporter 0 (leadMessage env (destructure req_body) subj txt)
    = Some (d1, Fulfilled (Some (JObj info1))) ->
  transporter 1 (autoMessage env (destructure req_body) markup)
    = Some (d2, Fulfilled (Some (JObj info2))) ->
  assoc (lit "messageId") info1 = str id1 -> id1 <> [] ->
  assoc (lit "messageId") info2 = str id2 -> id2 <> [] ->
  response (run (Index.handler env transporter nowISO req_body))
    = Some ((d1 + d2)%N,
            respond 200 [ (lit "ok", Some (JBool true));
                          (lit "leadId", str id1);
                          (lit "autoId", str id2) ])
  /\ (env_is (DISABLE_EMAIL env) (lit "true") = false ->
      (d1 < sendTimeout)%N -> (d2 < sendTimeout)%N ->
      response (run (Server.handler env transporter nowISO req_body))
        = Some (N.max d1 d2,
                respond 200 [ (lit "ok", Some (JBool true));
                              (lit "leadId", str id1);
                              (lit "autoId", str id2) ])).
Proof.
  intros Hm He Ht Hs Hh H1 H2 Hid1 Hne1 Hid2 Hne2.
  destruct (reported_identifier _ Hid1 Hne1) as [Hi1 Hs1].
  destruct (reported_identifier _ Hid2 Hne2) as [Hi2 Hs2].
  split.
  - rewrite (Index_built env transporter nowISO req_body Hm He Ht Hs Hh).
    cbv zeta. rewrite H1, H2, Hi1, Hi2. reflexivity.
  - intros Hd Hd1 Hd2.
    rewrite (Server_built env transporter nowISO req_body Hm He Hd Ht Hs Hh).
    cbv zeta. rewrite H1, H2.
    unfold race, Server.timer. rewrite N.add_0_l.
    apply N.lt_le_incl, N.leb_le in Hd1, Hd2. rewrite Hd1, Hd2.
    unfold all2. rewrite Hs1, Hs2. reflexivity.
Qed.

Lemma success_reports_relay_identifiers_witness :
  response (run (Index.handler Examples.env
                   (Examples.relay (lit "id-1") (lit "id-2"))
                   Examples.now Examples.request))
    = Some (250%N,
            respond 200 [ (lit "ok", Some (JBool true));
                          (lit "leadId", str (lit "id-1"));
                          (lit "autoId", str (lit "id-2")) ])
  /\ response (run (Server.handler Examples.env
                      (Examples.relay (lit "id-1") (lit "id-2"))
                      Examples.now Examples.request))
    = Some (150%N,
            respond 200 [ (lit "ok", Some (JBool true));
                          (lit "leadId", str (lit "id-1"));
                          (lit "autoId", str (lit "id-2")) ]).
Proof.
  edestruct (@success_reports_relay_identifiers NoNumber JsNumber_NoNumber Examples.env
               (Examples.relay (lit "id-1") (lit "id-2")) Examples.now
               Examples.request) as [HI HS];
    [ reflexivity | reflexivity | reflexivity | reflexivity | reflexivity
    | reflexivity | reflexivity | reflexivity | discriminate
    | reflexivity | discriminate | ].
  split; [exact HI|].
  apply HS; reflexivity.
Defined.

(** C7, as the specification words it, fails as soon as the relay reports the same
    identifier twice: both sends succeed and the answer carries two equal
    identifiers. *)
Lemma duplicate_identifier_counterexample :
  response (run (Server.handler Examples.env
                   (Examples.relay (lit "dup") (lit "dup"))
                   Examples.now Examples.request))
    = Some (150%N,
            respond 200 [ (lit "ok", Some (JBool true));
                          (lit "leadId", str (lit "dup"));
                          (lit "autoId", str (lit "dup")) ])
  /\ response (run (Index.handler Examples.env
                      (Examples.relay (lit "dup") (lit "dup"))
                      Examples.now Examples.request))
    = Some (250%N,
            respond 200 [ (lit "ok", Some (JBool true));
                          (lit "leadId", str (lit "dup"));
                          (lit "autoId", str (lit "dup")) ]).
Proof. split; reflexivity. Qed.

(* ------------------------------------------------------------------ *)
(** ** Bounded sends (part_000) *)

Section Bounded.
Context {num : Type} {NumOps : JsNumber num}.

Lemma race_timer_bound {A} (o : promise num A) :
  exists t r, race o (Server.timer 0%N sendTimeout) = Some (t, r)
              /\ (t <= sendTimeout)%N.
Proof.
  unfold race, Server.timer. rewrite N.add_0_l.
  destruct o as [[d r]|].
  - destruct (N.leb_spec d sendTimeout).
    + now exists d, r.
    + eexists _, _. split; [reflexivity|lia].
  - eexists _, _. split; [reflexivity|lia].
Qed.

Lemma race_timer_overdue {A} (o : promise num A) :
  overdue o ->
  race o (Server.timer 0%N sendTimeout)
  = Some (sendTimeout, Rejected (Error (lit "SMTP_TIMEOUT"))).
Proof.
  unfold race, Server.timer, overdue. rewrite N.add_0_l.
  destruct o as [[d r]|]; [|reflexivity].
  intros H. apply N.leb_gt in H. now rewrite H.
Qed.

Lemma all2_bound {A B} (p : promise num A) (q : promise num B)
    (T tp tq : time) (rp : settled num A) (rq : settled num B) :
  p = Some (tp, rp) -> q = Some (tq, rq) ->
  (tp <= T)%N -> (tq <= T)%N ->
  exists t r, all2 p q = Some (t, r) /\ (t <= T)%N.
Proof.
  intros -> -> Hp Hq. unfold all2.
  destruct rp as [a|e], rq as [b|e'].
  - eexists _, _. split; [reflexivity|lia].
  - now eexists _, _.
  - now eexists _, _.
  - destruct (N.leb tp tq); now eexists _, _.
Qed.

Variables (env : Env) (transporter : Transport num) (nowISO : jsstring).
Variable req_body : jsval num.

Let f := destructure req_body.

(** X19. Whatever the request and whatever the relay does, part_000 answers,
    and no later than the send timeout. *)
Theorem Server_answers_within_timeout :
  exists t r,
    response (run (Server.handler env transporter nowISO req_body))
      = Some (t, r)
    /\ (t <= sendTimeout)%N.
Proof.
  assert (H0 : (0 <= sendTimeout)%N) by apply N.le_0_l.
  destruct (missingRequired f) eqn:Hm.
  { rewrite Server_missing by assumption. now eexists _, _. }
  destruct (isEmail (email f)) as [[|]|e] eqn:He.
  2:{ rewrite Server_invalid by assumption. now eexists _, _. }
  2:{ rewrite (Server_isEmail_throws _ _ _ _ Hm He). now eexists _, _. }
  destruct (env_is (DISABLE_EMAIL env) (lit "true")) eqn:Hd.
  { rewrite Server_disabled by assumption. now eexists _, _. }
  destruct (leadText f nowISO) as [txt|e] eqn:Ht.
  2:{ rewrite (Server_text_throws _ _ _ _ Hm He Hd Ht). now eexists _, _. }
  destruct (leadText_ok _ _ Ht) as (subj & markup & Hs & Hh).
  rewrite (Server_built env transporter nowISO req_body Hm He Hd Ht Hs Hh).
  cbv zeta.
  destruct (race_timer_bound
              (transporter 0 (leadMessage env f subj txt)))
    as (t1 & r1 & E1 & B1).
  destruct (race_timer_bound
              (transporter 1 (autoMessage env f markup)))
    as (t2 & r2 & E2 & B2).
  destruct (all2_bound E1 E2 B1 B2) as (t & r & E & B).
  fold f. rewrite E.
  destruct r as [[i1 i2]|e]; now eexists _, _.
Qed.

(** The send timeout is not one of the relay's connection timeouts. *)
Lemma sendTimeout_is_its_own :
  sendTimeout <> Server.connectionTimeout Server.transporterOptions
  /\ sendTimeout <> Server.greetingTimeout Server.transporterOptions
  /\ sendTimeout <> Server.socketTimeout Server.transporterOptions.
Proof. repeat split; discriminate. Qed.

(** X20. When no send is refused in time and one of them is overdue, the timer
    decides: 504 at the instant it fires, the timeout error logged. *)
Theorem Server_timeout_answers_504 (txt subj markup : jsstring) :
  missingRequired f = false ->
  isEmail (email f) = Ok true ->
  env_is (DISABLE_EMAIL env) (lit "true") = false ->
  leadText f nowISO = Ok txt ->
  leadSubject f = Ok subj ->
  autoHtml f = Ok markup ->
  let m1 := leadMessage env f subj txt in
  let m2 := autoMessage env f markup in
  ~ refusedInTime (transporter 0 m1) ->
  ~ refusedInTime (transporter 1 m2) ->
  overdue (transporter 0 m1) \/ overdue (transporter 1 m2) ->
  run (Server.handler env transporter nowISO req_body)
  = {| response := Some (sendTimeout, failure 504 (lit "MAIL_SEND_FAILED"));
       sent := [(0%N, m1); (0%N, m2)];
       logged := [Error (lit "SMTP_TIMEOUT")] |}.
Proof.
  intros Hm He Hd Ht Hs Hh m1 m2 Hr1 Hr2 Hover.
  rewrite (Server_built env transporter nowISO req_body Hm He Hd Ht Hs Hh).
  cbv zeta. unfold m1, m2, f in *. clear m1 m2.
  assert (Hcase : forall o : promise num (jsval num),
             ~ refusedInTime o ->
             overdue o
             \/ exists d i, o = Some (d, Fulfilled i) /\ (d <= sendTimeout)%N).
  { intros [[d [i|e]]|] Hr; simpl.
    - destruct (N.leb_spec d sendTimeout); [right; eauto|now left].
    - destruct (N.leb_spec d sendTimeout); [|now left].
      exfalso. apply Hr. now exists d, e.
    - now left. }
  assert (Hdeliv : forall (o : promise num (jsval num)) d i,
             o = Some (d, Fulfilled i) -> (d <= sendTimeout)%N ->
             race o (Server.timer 0%N sendTimeout) = Some (d, Fulfilled i)).
  { intros o d i -> Hd'. unfold race, Server.timer. rewrite N.add_0_l.
    apply N.leb_le in Hd'. now rewrite Hd'. }
  destruct (Hcase _ Hr1) as [O1|(d1 & i1 & E1 & B1)];
    destruct (Hcase _ Hr2) as [O2|(d2 & i2 & E2 & B2)].
  - rewrite (race_timer_overdue _ O1), (race_timer_overdue _ O2).
    reflexivity.
  - rewrite (race_timer_overdue _ O1), (Hdeliv _ _ _ E2 B2). reflexivity.
  - rewrite (Hdeliv _ _ _ E1 B1), (race_timer_overdue _ O2). reflexivity.
  - exfalso. destruct Hover as [O|O].
    + rewrite E1 in O. simpl in O. lia.
    + rewrite E2 in O. simpl in O. lia.
Qed.

(** X21. Every answer of part_000 other than 200 and 400 is the generic
    failure: 504 when the error caught is the timer's, 502 otherwise. The
    error itself goes to the log only. *)
Theorem Server_failure_is_generic (t : time) (r : Response num) :
  response (run (Server.handler env transporter nowISO req_body)) = Some (t, r) ->
  status r <> 200 -> status r <> 400 ->
  exists e,
    logged (run (Server.handler env transporter nowISO req_body)) = [e]
    /\ r = failure (if strict_eq_str (err_message e) (lit "SMTP_TIMEOUT")
                    then 504 else 502)
                   (lit "MAIL_SEND_FAILED").
Proof.
  destruct (missingRequired f) eqn:Hm.
  { rewrite Server_missing by assumption. intros [= _ <-]. contradiction. }
  destruct (isEmail (email f)) as [[|]|e] eqn:He.
  2:{ rewrite Server_invalid by assumption. intros [= _ <-]. contradiction. }
  2:{ rewrite (Server_isEmail_throws _ _ _ _ Hm He). intros [= _ <-] _ _.
      now exists e. }
  destruct (env_is (DISABLE_EMAIL env) (lit "true")) eqn:Hd.
  { rewrite Server_disabled by assumption. intros [= _ <-]. contradiction. }
  destruct (leadText f nowISO) as [txt|e] eqn:Ht.
  2:{ rewrite (Server_text_throws _ _ _ _ Hm He Hd Ht). intros [= _ <-] _ _.
      now exists e. }
  destruct (leadText_ok _ _ Ht) as (subj & markup & Hs & Hh).
  rewrite (Server_built env transporter nowISO req_body Hm He Hd Ht Hs Hh).
  cbv zeta.
  destruct (all2 _ _) as [[t' [[i1 i2]|e]]|]; simpl.
  - intros [= _ <-]. contradiction.
  - intros [= _ <-] _ _. now exists e.
  - discriminate.
Qed.

End Bounded.

(** X22. Both sends of part_000 are issued at instant 0, before anything is
    awaited, whatever the relay does with either of them. *)
Theorem Server_issues_both_sends_at_once
    {num : Type} {NumOps : JsNumber num}
    (env : Env) (transporter : Transport num) (nowISO : jsstring)
    (req_body : jsval num) (txt subj markup : jsstring) :
  missingRequired (destructure req_body) = false ->
  isEmail (email (destructure req_body)) = Ok true ->
  env_is (DISABLE_EMAIL env) (lit "true") = false ->
  leadText (destructure req_body) nowISO = Ok txt ->
  leadSubject (destructure req_body) = Ok subj ->
  autoHtml (destructure req_body) = Ok markup ->
  sent (run (Server.handler env transporter nowISO req_body))
  = [ (0%N, leadMessage env (destructure req_body) subj txt);
      (0%N, autoMessage env (destructure req_body) markup) ].
Proof.
  intros Hm He Hd Ht Hs Hh.
  rewrite (Server_built env transporter nowISO req_body Hm He Hd Ht Hs Hh).
  cbv zeta. destruct (all2 _ _) as [[t [[i1 i2]|e]]|]; reflexivity.
Qed.

(** X23. With the switch on, part_000 answers a validated request at once with
    the note and the clock reading, and sends nothing. *)
Theorem Server_disabled_skips_sending
    {num : Type} {NumOps : JsNumber num}
    (env : Env) (transporter : Transport num) (nowISO : jsstring)
    (req_body : jsval num) :
  DISABLE_EMAIL env = Some (lit "true") ->
  missingRequired (destructure req_body) = false ->
  isEmail (email (destructure req_body)) = Ok true ->
  run (Server.handler env transporter nowISO req_body)
  = {| response :=
         Some (0%N, respond 200 [ (lit "ok", Some (JBool true));
                                  (lit "note", str (lit "email disabled"));
                                  (lit "submittedAt", str nowISO) ]);
       sent := []; logged := [] |}.
Proof.
  intros Hd Hm He. apply Server_disabled; try assumption.
  rewrite Hd. apply str_eqb_refl.
Qed.

(* ------------------------------------------------------------------ *)
(** ** index.js against the same properties *)

Section IndexFacts.
Context {num : Type} {NumOps : JsNumber num}.
Variables (env : Env) (transporter : Transport num) (nowISO : jsstring).
Variable req_body : jsval num.

Let f := destructure req_body.

(** X24. index.js has one failure answer, whatever went wrong. *)
Theorem Index_failure_is_500 (t : time) (r : Response num) :
  response (run (Index.handler env transporter nowISO req_body)) = Some (t, r) ->
  status r <> 200 -> status r <> 400 ->
  r = failure 500 (lit "MAIL_SEND_FAILED").
Proof.
  destruct (missingRequired f) eqn:Hm.
  { rewrite Index_missing by assumption. intros [= _ <-]. contradiction. }
  destruct (isEmail (email f)) as [[|]|e] eqn:He.
  2:{ rewrite Index_invalid by assumption. intros [= _ <-]. contradiction. }
  2:{ rewrite (Index_isEmail_throws _ _ _ _ Hm He). now intros [= _ <-]. }
  destruct (leadSubject f) as [subj|e] eqn:Hs.
  2:{ rewrite (Index_subject_throws _ _ _ _ Hm He Hs). now intros [= _ <-]. }
  destruct (leadText f nowISO) as [txt|e] eqn:Ht.
  2:{ rewrite (Index_text_throws _ _ _ _ Hm He Hs Ht). now intros [= _ <-]. }
  destruct (leadText_ok _ _ Ht) as (subj' & markup & _ & Hh).
  rewrite (Index_built env transporter nowISO req_body Hm He Ht Hs Hh).
  cbv zeta.
  destruct (transporter 0 _) as [[d1 [i1|e1]]|]; simpl;
    [|now intros [= _ <-]|discriminate].
  destruct (transporter 1 _) as [[d2 [i2|e2]]|]; simpl;
    [|now intros [= _ <-]|discriminate].
  destruct (Index.member i1 _); [|now intros [= _ <-]].
  destruct (Index.member i2 _); [|now intros [= _ <-]].
  intros [= _ <-]. contradiction.
Qed.

(** X25. index.js waits for the relay as long as it takes: a lead notice that
    never settles leaves the request unanswered, the auto-reply unsent. *)
Theorem Index_waits_for_the_relay (txt subj markup : jsstring) :
  missingRequired f = false ->
  isEmail (email f) = Ok true ->
  leadText f nowISO = Ok txt ->
  leadSubject f = Ok subj ->
  autoHtml f = Ok markup ->
  transporter 0 (leadMessage env f subj txt) = None ->
  run (Index.handler env transporter nowISO req_body)
  = {| response := None;
       sent := [(0%N, leadMessage env f subj txt)];
       logged := [] |}.
Proof.
  intros Hm He Ht Hs Hh H1.
  rewrite (Index_built env transporter nowISO req_body Hm He Ht Hs Hh).
  cbv zeta. fold f. now rewrite H1.
Qed.

(** X26. index.js issues the auto-reply only once the lead notice has been
    delivered, at that instant. *)
Theorem Index_auto_reply_follows_lead (txt subj : jsstring)
    (t : time) (m : MailMessage num) (h : jsstring) :
  leadText f nowISO = Ok txt ->
  leadSubject f = Ok subj ->
  In (t, m) (sent (run (Index.handler env transporter nowISO req_body))) ->
  html m = Some h ->
  exists internal,
    transporter 0 (leadMessage env f subj txt) = Some (t, Fulfilled internal).
Proof.
  intros Ht Hs Hin Hm.
  destruct (missingRequired f) eqn:Hmiss.
  { rewrite Index_missing in Hin by assumption. destruct Hin. }
  destruct (isEmail (email f)) as [[|]|e] eqn:He.
  2:{ rewrite Index_invalid in Hin by assumption. destruct Hin. }
  2:{ rewrite (Index_isEmail_throws _ _ _ _ Hmiss He) in Hin. destruct Hin. }
  destruct (leadText_ok _ _ Ht) as (subj' & markup & _ & Hh).
  rewrite (Index_built env transporter nowISO req_body Hmiss He Ht Hs Hh) in Hin.
  cbv zeta in Hin. fold f in Hin.
  assert (Hlead : html (leadMessage env f subj txt) <> Some h) by discriminate.
  destruct (transporter 0 _) as [[d1 [i1|e1]]|]; simpl in Hin.
  - assert (Hin' : In (t, m) [ (0%N, leadMessage env f subj txt);
                               (d1, autoMessage env f markup) ]).
    { destruct (transporter 1 _) as [[d2 [i2|e2]]|]; simpl in Hin; try exact Hin.
      destruct (Index.member i1 _); [|exact Hin].
      destruct (Index.member i2 _); exact Hin. }
    destruct Hin' as [[= _ <-]|[[= <- _]|[]]]; [contradiction|].
    now exists i1.
  - destruct Hin as [[= _ <-]|[]]. contradiction.
  - destruct Hin as [[= _ <-]|[]]. contradiction.
Qed.

End IndexFacts.

(* ------------------------------------------------------------------ *)
(** ** The two handlers on the same inputs *)

(** C2, run on a well-formed request whose relay refuses the send. The
    specification asks for 502 on a transport failure and 504 on a timeout, the
    body being the generic tag either way. part_000 answers 502 here;
    index.js answers 500, its only failure status. *)
Lemma index_send_failure_answers_500 :
  response (run (Index.handler Examples.env Examples.refusing
                   Examples.now Examples.request))
    = Some (30%N, failure 500 (lit "MAIL_SEND_FAILED"))
  /\ response (run (Server.handler Examples.env Examples.refusing
                      Examples.now Examples.request))
    = Some (30%N, failure 502 (lit "MAIL_SEND_FAILED")).
Proof. split; reflexivity. Qed.

(** C3, run on a well-formed request whose relay never answers, and on
    one whose relay takes a minute over each send. The specification asks for a
    timeout failure within the send bound. part_000 answers 504 when its
    7000 ms timer fires; index.js has no timer: it never answers the first,
    and answers the second after the two minutes the relay takes. *)
Lemma index_never_answers_a_silent_relay :
  response (run (Index.handler Examples.env Examples.silent
                   Examples.now Examples.request))
    = None
  /\ option_map fst
       (response (run (Index.handler Examples.env Examples.slow
                         Examples.now Examples.request)))
     = Some 120000%N
  /\ response (run (Server.handler Examples.env Examples.silent
                      Examples.now Examples.request))
     = Some (sendTimeout, failure 504 (lit "MAIL_SEND_FAILED"))
  /\ response (run (Server.handler Examples.env Examples.slow
                      Examples.now Examples.request))
     = Some (sendTimeout, failure 504 (lit "MAIL_SEND_FAILED")).
Proof. repeat split; reflexivity. Qed.

(** C4, run on a well-formed request whose relay delivers the lead notice
    in 100 ms and the auto-reply in 150 ms, and on one whose relay refuses.
    The specification asks for two sends in flight together, joined. part_000 issues
    both at instant 0 and answers at 150, and issues both even when the
    first is refused; index.js issues the second at 100, when the first is
    done, answers at 250, and never issues the second when the first is
    refused. *)
Lemma index_sends_one_after_the_other :
  map fst (sent (run (Index.handler Examples.env
                        (Examples.relay (lit "id-1") (lit "id-2"))
                        Examples.now Examples.request)))
    = [0%N; 100%N]
  /\ option_map fst
       (response (run (Index.handler Examples.env
                         (Examples.relay (lit "id-1") (lit "id-2"))
                         Examples.now Examples.request)))
     = Some 250%N
  /\ map fst (sent (run (Index.handler Examples.env Examples.refusing
                           Examples.now Examples.request)))
     = [0%N]
  /\ map fst (sent (run (Server.handler Examples.env
                           (Examples.relay (lit "id-1") (lit "id-2"))
                           Examples.now Examples.request)))
     = [0%N; 0%N]
  /\ option_map fst
       (response (run (Server.handler Examples.env
                         (Examples.relay (lit "id-1") (lit "id-2"))
                         Examples.now Examples.request)))
     = Some 150%N
  /\ map fst (sent (run (Server.handler Examples.env Examples.refusing
                           Examples.now Examples.request)))
     = [0%N; 0%N].
Proof. repeat split; reflexivity. Qed.

(** C6, run on a well-formed request with DISABLE_EMAIL set to "true". The
    specification asks for 200 with the note and the timestamp, and no send.
    part_000 does that; index.js never reads the switch, sends both mails
    and answers with their identifiers. *)
Lemma index_ignores_the_disable_switch :
  DISABLE_EMAIL Examples.env_disabled = Some (lit "true")
  /\ map fst (sent (run (Index.handler Examples.env_disabled
                           (Examples.relay (lit "id-1") (lit "id-2"))
                           Examples.now Examples.request)))
     = [0%N; 100%N]
  /\ response (run (Index.handler Examples.env_disabled
                      (Examples.relay (lit "id-1") (lit "id-2"))
                      Examples.now Examples.request))
     = Some (250%N,
             respond 200 [ (lit "ok", Some (JBool true));
                           (lit "leadId", str (lit "id-1"));
                           (lit "autoId", str (lit "id-2")) ])
  /\ run (Server.handler Examples.env_disabled
            (Examples.relay (lit "id-1") (lit "id-2"))
            Examples.now Examples.request)
     = {| response :=
            Some (0%N,
                  respond 200 [ (lit "ok", Some (JBool true));
                                (lit "note", str (lit "email disabled"));
                                (lit "submittedAt", str Examples.now) ]);
          sent := []; logged := [] |}.
Proof. repeat split; reflexivity. Qed.
(* ================================================================== *)
(** * Further properties of the code *)

(* ------------------------------------------------------------------ *)
(** ** String conversion *)

Section Conversion.
Context {num : Type} {NumOps : JsNumber num}.

(** The only exception a string conversion raises. *)
Lemma ToString_throws (j : json num) (e : exn num) :
  ToString j = Throw e -> e = TypeError_toPrimitive.
Proof.
  revert e. induction j as [ | b | n | s | l IHl | kv _ ] using json_induction;
    intros e; simpl; try discriminate.
  - destruct ((fix elems (l : list (json num)) := _) l) as [ss|e0] eqn:El;
      [discriminate|].
    intros [= <-]. revert e0 El.
    induction IHl as [|x r Hx _ IHr]; intros e0; [discriminate|].
    destruct (match x with JNull => Ok [] | _ => ToString x end) as [s|e1] eqn:Ex.
    + destruct ((fix elems (l : list (json num)) := _) r) as [ss|e2] eqn:Er;
        [discriminate|].
      intros [= <-]. now apply IHr.
    + intros [= <-]. destruct x; try discriminate; now apply Hx.
  - destruct (assoc (lit "toString") kv); [|discriminate].
    now intros [= <-].
Qed.

Lemma toStr_throws (v : jsval num) (e : exn num) :
  toStr v = Throw e -> e = TypeError_toPrimitive.
Proof.
  destruct v as [j|]; simpl; [apply ToString_throws|discriminate].
Qed.

End Conversion.

(* ------------------------------------------------------------------ *)
(** ** What a request can send *)

Section Sends.
Context {num : Type} {NumOps : JsNumber num}.
Variables (env : Env) (transporter : Transport num) (nowISO : jsstring).
Variable req_body : jsval num.

Let f := destructure req_body.

(** part_000 sends nothing, or it has validated the request, found mail
    enabled, built both messages and issued both at instant 0. *)
Lemma Server_sends :
  sent (run (Server.handler env transporter nowISO req_body)) = []
  \/ (missingRequired f = false
      /\ isEmail (email f) = Ok true
      /\ env_is (DISABLE_EMAIL env) (lit "true") = false
      /\ exists txt subj markup,
           leadText f nowISO = Ok txt /\ leadSubject f = Ok subj
           /\ autoHtml f = Ok markup
           /\ sent (run (Server.handler env transporter nowISO req_body))
              = [ (0%N, leadMessage env f subj txt);
                  (0%N, autoMessage env f markup) ]).
Proof.
  destruct (missingRequired f) eqn:Hm.
  { left. now rewrite Server_missing. }
  destruct (isEmail (email f)) as [[|]|e] eqn:He.
  2:{ left. now rewrite Server_invalid. }
  2:{ left. now rewrite (Server_isEmail_throws _ _ _ _ Hm He). }
  destruct (env_is (DISABLE_EMAIL env) (lit "true")) eqn:Hd.
  { left. now rewrite Server_disabled. }
  destruct (leadText f nowISO) as [txt|e] eqn:Ht.
  2:{ left. now rewrite (Server_text_throws _ _ _ _ Hm He Hd Ht). }
  destruct (leadText_ok _ _ Ht) as (subj & markup & Hs & Hh).
  right. repeat split; try reflexivity.
  exists txt, subj, markup. repeat split; try assumption.
  rewrite (Server_built env transporter nowISO req_body Hm He Hd Ht Hs Hh).
  cbv zeta. destruct (all2 _ _) as [[t [[i1 i2]|e]]|]; reflexivity.
Qed.

(** index.js sends nothing, or it has validated the request and issued the
    lead notice at instant 0; the auto-reply follows at the instant the lead
    notice is delivered, if it is. *)
Lemma Index_sends :
  sent (run (Index.handler env transporter nowISO req_body)) = []
  \/ (missingRequired f = false
      /\ isEmail (email f) = Ok true
      /\ exists txt subj markup,
           leadText f nowISO = Ok txt /\ leadSubject f = Ok subj
           /\ autoHtml f = Ok markup
           /\ (sent (run (Index.handler env transporter nowISO req_body))
                 = [ (0%N, leadMessage env f subj txt) ]
               \/ exists d1 internal,
                    transporter 0 (leadMessage env f subj txt)
                      = Some (d1, Fulfilled internal)
                    /\ sent (run (Index.handler env transporter nowISO req_body))
                       = [ (0%N, leadMessage env f subj txt);
                           (d1, autoMessage env f markup) ])).
Proof.
  destruct (missingRequired f) eqn:Hm.
  { left. now rewrite Index_missing. }
  destruct (isEmail (email f)) as [[|]|e] eqn:He.
  2:{ left. now rewrite Index_invalid. }
  2:{ left. now rewrite (Index_isEmail_throws _ _ _ _ Hm He). }
  destruct (leadSubject f) as [subj|e] eqn:Hs.
  2:{ left. now rewrite (Index_subject_throws _ _ _ _ Hm He Hs). }
  destruct (leadText f nowISO) as [txt|e] eqn:Ht.
  2:{ left. now rewrite (Index_text_throws _ _ _ _ Hm He Hs Ht). }
  destruct (leadText_ok _ _ Ht) as (subj' & markup & _ & Hh).
  right. repeat split; try reflexivity.
  exists txt, subj, markup. repeat split; try assumption.
  rewrite (Index_built env transporter nowISO req_body Hm He Ht Hs Hh).
  cbv zeta. fold f.
  destruct (transporter 0 _) as [[d1 [i1|e1]]|] eqn:E1; try (now left).
  right. exists d1, i1. split; [reflexivity|].
  destruct (transporter 1 _) as [[d2 [i2|e2]]|]; try reflexivity.
  destruct (Index.member i1 _); [|reflexivity].
  destruct (Index.member i2 _); reflexivity.
Qed.

End Sends.

(** X1. Neither handler issues a send unless the four required fields are
    truthy and the email value has passed [isEmail]. *)
Theorem no_send_without_validation
    (num : Type) (NumOps : JsNumber num)
    (env : Env) (transporter : Transport num) (nowISO : jsstring)
    (req_body : jsval num) :
  sent (run (Index.handler env transporter nowISO req_body)) <> []
  \/ sent (run (Server.handler env transporter nowISO req_body)) <> [] ->
  missingRequired (destructure req_body) = false
  /\ isEmail (email (destructure req_body)) = Ok true.
Proof.
  intros [H|H].
  - destruct (Index_sends env transporter nowISO req_body)
      as [E|(Hm & He & _)]; [contradiction|now split].
  - destruct (Server_sends env transporter nowISO req_body)
      as [E|(Hm & He & _)]; [contradiction|now split].
Qed.

Lemma no_send_without_validation_witness :
  missingRequired (destructure Examples.request) = false
  /\ isEmail (email (destructure Examples.request)) = Ok true.
Proof.
  apply (@no_send_without_validation NoNumber JsNumber_NoNumber Examples.env
           (Examples.relay (lit "id-1") (lit "id-2")) Examples.now
           Examples.request).
  left. vm_compute. discriminate.
Defined.

(** X2. A request leads to at most two sends and never to a retry: either
    nothing, or the lead notice alone, or the lead notice followed by the
    auto-reply. The auto-reply is never issued without the lead notice
    before it; in part_000 the lead notice never goes alone. *)
Theorem at_most_one_send_per_message
    (num : Type) (NumOps : JsNumber num)
    (env : Env) (transporter : Transport num) (nowISO : jsstring)
    (req_body : jsval num) :
  (sent (run (Index.handler env transporter nowISO req_body)) = []
   \/ (exists lead,
         sent (run (Index.handler env transporter nowISO req_body))
           = [(0%N, lead)]
         /\ text lead <> None /\ html lead = None)
   \/ (exists lead t auto,
         sent (run (Index.handler env transporter nowISO req_body))
           = [(0%N, lead); (t, auto)]
         /\ text lead <> None /\ html lead = None
         /\ html auto <> None /\ text auto = None))
  /\ (sent (run (Server.handler env transporter nowISO req_body)) = []
      \/ (exists lead auto,
            sent (run (Server.handler env transporter nowISO req_body))
              = [(0%N, lead); (0%N, auto)]
            /\ text lead <> None /\ html lead = None
            /\ html auto <> None /\ text auto = None)).
Proof.
  split.
  - destruct (Index_sends env transporter nowISO req_body)
      as [E|(_ & _ & txt & subj & markup & _ & _ & _ & [E|(d1 & i1 & _ & E)])].
    + now left.
    + right. left. eexists. split; [exact E|]. split; [discriminate|reflexivity].
    + right. right. eexists _, _, _. split; [exact E|].
      repeat split; try reflexivity; discriminate.
  - destruct (Server_sends env transporter nowISO req_body)
      as [E|(_ & _ & _ & txt & subj & markup & _ & _ & _ & E)].
    + now left.
    + right. eexists _, _. split; [exact E|].
      repeat split; try reflexivity; discriminate.
Qed.

(** X3. Who gets what. Every message either handler sends is From the
    configured sender. The lead notice (the one with a text body) goes To the
    leads address with Reply-To the submitter's email value; the auto-reply
    (the one with an HTML body) goes To the submitter's email value, which has
    passed [isEmail], with Reply-To the leads address and the fixed subject. *)
Theorem mail_addressing
    (num : Type) (NumOps : JsNumber num)
    (env : Env) (transporter : Transport num) (nowISO : jsstring)
    (req_body : jsval num) (t : time) (m : MailMessage num) :
  In (t, m) (sent (run (Index.handler env transporter nowISO req_body)))
  \/ In (t, m) (sent (run (Server.handler env transporter nowISO req_body))) ->
  from m = sender env
  /\ isEmail (email (destructure req_body)) = Ok true
  /\ ((text m <> None
       /\ to m = str (leadsTo env)
       /\ replyTo m = email (destructure req_body))
      \/ (html m <> None
          /\ to m = email (destructure req_body)
          /\ replyTo m = str (leadsTo env)
          /\ subject m = autoSubject)).
Proof.
  assert (Hlead : forall subj txt,
            m = leadMessage env (destructure req_body) subj txt ->
            from m = sender env
            /\ (text m <> None /\ to m = str (leadsTo env)
                /\ replyTo m = email (destructure req_body))).
  { intros subj txt ->. repeat split. discriminate. }
  assert (Hauto : forall markup,
            m = autoMessage env (destructure req_body) markup ->
            from m = sender env
            /\ (html m <> None /\ to m = email (destructure req_body)
                /\ replyTo m = str (leadsTo env) /\ subject m = autoSubject)).
  { intros markup ->. repeat split. discriminate. }
  intros [Hin|Hin].
  - destruct (Index_sends env transporter nowISO req_body)
      as [E|(_ & He & txt & subj & markup & _ & _ & _ & [E|(d1 & i1 & _ & E)])];
      rewrite E in Hin; simpl in Hin.
    + contradiction.
    + destruct Hin as [[= _ <-]|[]].
      destruct (Hlead _ _ eq_refl) as [? ?]. auto.
    + destruct Hin as [[= _ <-]|[[= _ <-]|[]]].
      * destruct (Hlead _ _ eq_refl) as [? ?]. auto.
      * destruct (Hauto _ eq_refl) as [? ?]. auto.
  - destruct (Server_sends env transporter nowISO req_body)
      as [E|(_ & He & _ & txt & subj & markup & _ & _ & _ & E)];
      rewrite E in Hin; simpl in Hin.
    + contradiction.
    + destruct Hin as [[= _ <-]|[[= _ <-]|[]]].
      * destruct (Hlead _ _ eq_refl) as [? ?]. auto.
      * destruct (Hauto _ eq_refl) as [? ?]. auto.
Qed.

Lemma mail_addressing_witness :
  from Cases.auto_message = sender Examples.env
  /\ isEmail (email (destructure Examples.request)) = Ok true
  /\ ((text Cases.auto_message <> None
       /\ to Cases.auto_message = str (leadsTo Examples.env)
       /\ replyTo Cases.auto_message = email (destructure Examples.request))
      \/ (html Cases.auto_message <> None
          /\ to Cases.auto_message = email (destructure Examples.request)
          /\ replyTo Cases.auto_message = str (leadsTo Examples.env)
          /\ subject Cases.auto_message = autoSubject)).
Proof.
  apply (@mail_addressing NoNumber JsNumber_NoNumber Examples.env
           (Examples.relay (lit "id-1") (lit "id-2")) Examples.now
           Examples.request 100%N Cases.auto_message).
  left. vm_compute. right. left. reflexivity.
Defined.

(* ------------------------------------------------------------------ *)
(** ** The lead notice *)

Section LeadNotice.
Context {num : Type} {NumOps : JsNumber num}.

Lemma leadText_shape (f : Fields num) (nowISO txt : jsstring) :
  leadText f nowISO = Ok txt ->
  exists s_name s_email s_phone s_city s_type s_message,
    toStr (name f) = Ok s_name
    /\ toStr (email f) = Ok s_email
    /\ toStr (phone f) = Ok s_phone
    /\ toStr (city f) = Ok s_city
    /\ toStr (or_else (type f) (str [emdash])) = Ok s_type
    /\ toStr (or_else (message f) (str [emdash])) = Ok s_message
    /\ txt = lit "Name: " ++ s_name ++ [newline]
             ++ lit "Email: " ++ s_email ++ [newline]
             ++ lit "Phone: " ++ s_phone ++ [newline]
             ++ lit "City: " ++ s_city ++ [newline]
             ++ lit "Type: " ++ s_type ++ [newline]
             ++ lit "Message: " ++ s_message ++ [newline]
             ++ lit "Submitted: " ++ nowISO.
Proof.
  unfold leadText, rbind.
  destruct (toStr (name f)) as [s_name|]; [|discriminate].
  destruct (toStr (email f)) as [s_email|]; [|discriminate].
  destruct (toStr (phone f)) as [s_phone|]; [|discriminate].
  destruct (toStr (city f)) as [s_city|]; [|discriminate].
  destruct (toStr (or_else (type f) (str [emdash]))) as [s_type|]; [|discriminate].
  destruct (toStr (or_else (message f) (str [emdash]))) as [s_message|];
    [|discriminate].
  intros [= <-].
  exists s_name, s_email, s_phone, s_city, s_type, s_message.
  repeat split; reflexivity.
Qed.



End LeadNotice.





(* ------------------------------------------------------------------ *)
(** ** Fields that are there but unusable *)

Section Unusable.
Context {num : Type} {NumOps : JsNumber num}.

Lemma blank_is_falsy (v : jsval num) : blank v -> truthy v = false.
Proof. intros [H | [H | H]]; rewrite H; reflexivity. Qed.

Lemma ownToString_throws (v : jsval num) :
  ownToString v ->
  truthy v = true /\ toStr v = Throw TypeError_toPrimitive.
Proof.
  intros (kv & x & -> & Hx). split; [reflexivity|].
  simpl. now rewrite Hx.
Qed.

Lemma leadText_throws (f : Fields num) (nowISO : jsstring) (e : exn num) :
  leadText f nowISO = Throw e -> e = TypeError_toPrimitive.
Proof.
  unfold leadText, rbind.
  repeat match goal with
         | |- context [match toStr ?v with _ => _ end] =>
             let E := fresh "E" in
             destruct (toStr v) eqn:E;
             [|let H := fresh "H" in
               intros H; injection H as <-; now apply (toStr_throws _ E)]
         end.
  discriminate.
Qed.

Lemma leadSubject_throws (f : Fields num) (e : exn num) :
  leadSubject f = Throw e -> e = TypeError_toPrimitive.
Proof.
  unfold leadSubject, rbind.
  repeat match goal with
         | |- context [match toStr ?v with _ => _ end] =>
             let E := fresh "E" in
             destruct (toStr v) eqn:E;
             [|let H := fresh "H" in
               intros H; injection H as <-; now apply (toStr_throws _ E)]
         end.
  discriminate.
Qed.

Lemma leadText_unconvertible (f : Fields num) (nowISO : jsstring) :
  ownToString (name f) \/ ownToString (phone f) \/ ownToString (city f)
  \/ ownToString (type f) \/ ownToString (message f) ->
  leadText f nowISO = Throw TypeError_toPrimitive.
Proof.
  intros H.
  destruct (leadText f nowISO) as [txt|e] eqn:E.
  - exfalso. apply leadText_shape in E
      as (s_name & s_email & s_phone & s_city & s_type & s_message
          & Hn & _ & Hp & Hc & Hty & Hmsg & _).
    destruct H as [H|[H|[H|[H|H]]]];
      apply ownToString_throws in H as [Htr Hthrow].
    + congruence.
    + congruence.
    + congruence.
    + unfold or_else in Hty. rewrite Htr in Hty. congruence.
    + unfold or_else in Hmsg. rewrite Htr in Hmsg. congruence.
  - now rewrite (leadText_throws _ _ E).
Qed.

End Unusable.

(** X6. A field that cannot be turned into a string -- an object with a
    [toString] key of its own as name, phone, city, type or message -- makes
    a request that has passed validation fail as a mail failure before any
    send: index.js answers 500 and part_000 (mail enabled) 502, both at once,
    with the TypeError logged. *)
Theorem unconvertible_field_fails_before_any_send
    (num : Type) (NumOps : JsNumber num)
    (env : Env) (transporter : Transport num) (nowISO : jsstring)
    (req_body : jsval num) :
  missingRequired (destructure req_body) = false ->
  isEmail (email (destructure req_body)) = Ok true ->
  ownToString (name (destructure req_body))
  \/ ownToString (phone (destructure req_body))
  \/ ownToString (city (destructure req_body))
  \/ ownToString (type (destructure req_body))
  \/ ownToString (message (destructure req_body)) ->
  run (Index.handler env transporter nowISO req_body)
    = {| response := Some (0%N, failure 500 (lit "MAIL_SEND_FAILED"));
         sent := []; logged := [TypeError_toPrimitive] |}
  /\ (env_is (DISABLE_EMAIL env) (lit "true") = false ->
      run (Server.handler env transporter nowISO req_body)
        = {| response := Some (0%N, failure 502 (lit "MAIL_SEND_FAILED"));
             sent := []; logged := [TypeError_toPrimitive] |}).
Proof.
  intros Hm He Hbad.
  pose proof (leadText_unconvertible _ nowISO Hbad) as Ht.
  split.
  - destruct (leadSubject (destructure req_body)) as [subj|e] eqn:Hs.
    + now rewrite (Index_text_throws _ _ _ _ Hm He Hs Ht).
    + rewrite (Index_subject_throws _ _ _ _ Hm He Hs).
      now rewrite (leadSubject_throws _ Hs).
  - intros Hd. now rewrite (Server_text_throws _ _ _ _ Hm He Hd Ht).
Qed.

Lemma unconvertible_field_witness :
  run (Index.handler Examples.env (Examples.relay (lit "id-1") (lit "id-2"))
         Examples.now Cases.request_object_phone)
    = {| response := Some (0%N, failure 500 (lit "MAIL_SEND_FAILED"));
         sent := []; logged := [TypeError_toPrimitive] |}
  /\ (env_is (DISABLE_EMAIL Examples.env) (lit "true") = false ->
      run (Server.handler Examples.env
             (Examples.relay (lit "id-1") (lit "id-2"))
             Examples.now Cases.request_object_phone)
        = {| response := Some (0%N, failure 502 (lit "MAIL_SEND_FAILED"));
             sent := []; logged := [TypeError_toPrimitive] |}).
Proof.
  apply (@unconvertible_field_fails_before_any_send NoNumber
           JsNumber_NoNumber Examples.env
           (Examples.relay (lit "id-1") (lit "id-2")) Examples.now
           Cases.request_object_phone).
  - reflexivity.
  - reflexivity.
  - right. left. exists [(lit "toString", JNull)], JNull.
    split; reflexivity.
Defined.

(** X7. A required field that is there but is [null], [false] or the empty
    string counts as missing: both handlers answer 400 MISSING_FIELDS at once
    and send nothing. *)
Theorem blank_required_field_is_missing
    (num : Type) (NumOps : JsNumber num)
    (env : Env) (transporter : Transport num) (nowISO : jsstring)
    (req_body : jsval num) :
  blank (name (destructure req_body))
  \/ blank (email (destructure req_body))
  \/ blank (phone (destructure req_body))
  \/ blank (city (destructure req_body)) ->
  run (Index.handler env transporter nowISO req_body)
    = rejected 400 (lit "MISSING_FIELDS")
  /\ run (Server.handler env transporter nowISO req_body)
    = rejected 400 (lit "MISSING_FIELDS").
Proof.
  intros H.
  assert (Hm : missingRequired (destructure req_body) = true).
  { unfold missingRequired.
    destruct H as [H|[H|[H|H]]]; apply blank_is_falsy in H; rewrite H; simpl;
      rewrite ?orb_true_r; reflexivity. }
  split; [now apply Index_missing|now apply Server_missing].
Qed.

Lemma blank_required_field_witness :
  run (Index.handler Examples.env (Examples.relay (lit "id-1") (lit "id-2"))
         Examples.now Cases.request_empty_city)
    = rejected 400 (lit "MISSING_FIELDS")
  /\ run (Server.handler Examples.env
            (Examples.relay (lit "id-1") (lit "id-2"))
            Examples.now Cases.request_empty_city)
    = rejected 400 (lit "MISSING_FIELDS").
Proof.
  apply (@blank_required_field_is_missing NoNumber JsNumber_NoNumber).
  right. right. right. right. right. reflexivity.
Defined.

(* ------------------------------------------------------------------ *)
(** ** The allow-list *)

Lemma split_structure (sep : jschar) (s : jsstring) :
  exists h t,
    split sep s = h :: t
    /\ (exists b, s = h ++ b)
    /\ (forall piece, In piece t -> exists a b, s = a ++ piece ++ b).
Proof.
  induction s as [|c s (h & t & E & (b & Eh) & Ht)]; simpl.
  - exists [], []. repeat split; [now exists []|intros ? []].
  - destruct (N.eqb c sep).
    + exists [], (h :: t). rewrite E. repeat split; [now exists (c :: s)|].
      intros piece [<-|Hin].
      * exists [c], b. simpl. now f_equal.
      * destruct (Ht _ Hin) as (a & b' & ->). now exists (c :: a), b'.
    + rewrite E. exists (c :: h), t. repeat split.
      * exists b. simpl. now f_equal.
      * intros piece Hin. destruct (Ht _ Hin) as (a & b' & ->).
        now exists (c :: a), b'.
Qed.

Lemma split_segment (sep : jschar) (s piece : jsstring) :
  In piece (split sep s) -> exists a b, s = a ++ piece ++ b.
Proof.
  destruct (split_structure sep s) as (h & t & E & (b & Eh) & Ht).
  rewrite E. intros [<-|Hin]; [now exists [], b|now apply Ht].
Qed.

Lemma dropWhile_all (p : jschar -> bool) (s : jsstring) :
  Forall (fun c => p c = true) s -> dropWhile p s = [].
Proof.
  induction 1 as [|c s Hc _ IH]; simpl; [reflexivity|]. now rewrite Hc.
Qed.

Lemma trim_all_space (s : jsstring) :
  Forall (fun c => is_space c = true) s -> trim s = [].
Proof.
  intros H. unfold trim. now rewrite (dropWhile_all _ H).
Qed.

Lemma trim_segment (s : jsstring) : exists a b, s = a ++ trim s ++ b.
Proof.
  destruct (trim_spec s) as (pre & post & E & _). now exists pre, post.
Qed.

(** X8. An ALLOWED_ORIGIN that is unset, empty, or made of commas and
    white space only allows no origin at all: the allow-list is empty and
    every request that carries a non-empty Origin fails with the CORS
    error. *)
Theorem cors_closed_without_configuration (env : Env) :
  onlySeparators (env_or (ALLOWED_ORIGIN env) []) ->
  allowList env = []
  /\ forall o, o <> [] ->
       corsOrigin env (Some o)
       = CorsError (lit "CORS blocked from origin: " ++ o).
Proof.
  intros Hsep.
  assert (Hnone : allowList env = []).
  { unfold allowList.
    assert (Hpieces : Forall (fun piece => trim piece = [])
                        (split (ch ",") (env_or (ALLOWED_ORIGIN env) []))).
    { apply Forall_forall. intros piece Hin. apply trim_all_space.
      pose proof (split_pieces (ch ",") (env_or (ALLOWED_ORIGIN env) [])) as Hno.
      rewrite Forall_forall in Hno. specialize (Hno _ Hin).
      destruct (split_segment _ _ _ Hin) as (a & b & E).
      unfold onlySeparators in Hsep. rewrite E in Hsep.
      apply Forall_app in Hsep as [_ Hsep].
      apply Forall_app in Hsep as [Hsep _].
      rewrite Forall_forall in Hsep |- *. intros c Hc.
      destruct (Hsep _ Hc) as [Hs| ->]; [assumption|contradiction]. }
    induction Hpieces as [|piece l Hp _ IH]; simpl; [reflexivity|].
    now rewrite Hp. }
  split; [assumption|].
  intros o Ho. unfold corsOrigin. rewrite Hnone.
  destruct o; [contradiction|reflexivity].
Qed.

Lemma cors_closed_without_configuration_witness :
  allowList Cases.env_unconfigured = []
  /\ forall o, o <> [] ->
       corsOrigin Cases.env_unconfigured (Some o)
       = CorsError (lit "CORS blocked from origin: " ++ o).
Proof.
  apply cors_closed_without_configuration.
  unfold onlySeparators. simpl.
  repeat (apply Forall_cons;
          [first [left; reflexivity | right; reflexivity]|]).
  apply Forall_nil.
Defined.

(** X9. Every entry of the allow-list is a stretch of the configured
    ALLOWED_ORIGIN that is not empty, holds no comma, and neither starts nor
    ends with white space. *)
Theorem allow_list_entries_are_trimmed (env : Env) (o : jsstring) :
  In o (allowList env) ->
  o <> []
  /\ ~ In (ch ",") o
  /\ (forall c r, o = c :: r -> is_space c = false)
  /\ (forall c r, o = r ++ [c] -> is_space c = false)
  /\ exists a b, env_or (ALLOWED_ORIGIN env) [] = a ++ o ++ b.
Proof.
  intros Hin. apply allowList_spec in Hin as (Hne & piece & Hpiece & ->).
  destruct (trim_spec piece) as (pre & post & E & _ & _ & Hfirst & Hlast).
  pose proof (split_pieces (ch ",") (env_or (ALLOWED_ORIGIN env) [])) as Hno.
  rewrite Forall_forall in Hno. specialize (Hno _ Hpiece).
  destruct (split_segment _ _ _ Hpiece) as (a & b & Es).
  split; [assumption|]. split; [|split; [assumption|split; [assumption|]]].
  - intros Hc. apply Hno. rewrite E.
    apply in_or_app. right. apply in_or_app. now left.
  - exists (a ++ pre), (post ++ b). rewrite Es at 1. rewrite E at 1.
    now rewrite <- !app_assoc.
Qed.

Lemma allow_list_entries_witness :
  lit "https://www.patioblindsdirect.com" <> []
  /\ ~ In (ch ",") (lit "https://www.patioblindsdirect.com")
  /\ (forall c r, lit "https://www.patioblindsdirect.com" = c :: r ->
        is_space c = false)
  /\ (forall c r, lit "https://www.patioblindsdirect.com" = r ++ [c] ->
        is_space c = false)
  /\ exists a b,
       env_or (ALLOWED_ORIGIN Examples.env) []
       = a ++ lit "https://www.patioblindsdirect.com" ++ b.
Proof.
  apply (allow_list_entries_are_trimmed Examples.env).
  vm_compute. right. left. reflexivity.
Defined.

(** X10. The allow-list is trimmed but the Origin header is not, and the
    match is exact: an Origin that starts or ends with white space, or that
    holds a comma, fails with the CORS error whatever the configuration. *)
Theorem cors_does_not_trim_the_header (env : Env) (o : jsstring) :
  (exists c r, o = c :: r /\ is_space c = true)
  \/ (exists c r, o = r ++ [c] /\ is_space c = true)
  \/ In (ch ",") o ->
  corsOrigin env (Some o) = CorsError (lit "CORS blocked from origin: " ++ o).
Proof.
  intros H.
  assert (Hne : is_empty o = false).
  { destruct H as [(c & r & -> & _)|[(c & r & -> & _)|Hin]].
    - reflexivity.
    - now destruct r.
    - destruct o; [destruct Hin|reflexivity]. }
  assert (Hout : includes (allowList env) o = false).
  { destruct (includes (allowList env) o) eqn:E; [exfalso|reflexivity].
    apply includes_In, allowList_spec in E as (_ & piece & Hpiece & Eo).
    destruct (trim_spec piece) as (pre & post & Ep & _ & _ & Hfirst & Hlast).
    rewrite <- Eo in Hfirst, Hlast, Ep.
    destruct H as [(c & r & Ec & Hc)|[(c & r & Ec & Hc)|Hin]].
    - rewrite (Hfirst _ _ Ec) in Hc. discriminate.
    - rewrite (Hlast _ _ Ec) in Hc. discriminate.
    - pose proof (split_pieces (ch ",") (env_or (ALLOWED_ORIGIN env) [])) as Hno.
      rewrite Forall_forall in Hno. apply (Hno _ Hpiece). rewrite Ep.
      apply in_or_app. right. apply in_or_app. now left. }
  unfold corsOrigin. now rewrite Hne, Hout.
Qed.

Lemma cors_does_not_trim_the_header_witness :
  corsOrigin Examples.env (Some (lit "https://patioblindsdirect.com "))
  = CorsError (lit "CORS blocked from origin: "
                 ++ lit "https://patioblindsdirect.com ").
Proof.
  apply cors_does_not_trim_the_header.
  right. left. exists (ch " "), (lit "https://patioblindsdirect.com").
  split; reflexivity.
Defined.

(* ------------------------------------------------------------------ *)
(** ** isEmail *)

Section IsEmail.
Context {num : Type} {NumOps : JsNumber num}.

Lemma notSpaceAt_spec (c : jschar) :
  notSpaceAt c = true <-> is_space c = false /\ c <> ch "@".
Proof.
  unfold notSpaceAt.
  rewrite negb_true_iff, orb_false_iff, N.eqb_neq. tauto.
Qed.

Lemma count_occ_absent (s : jsstring) (x : jschar) :
  Forall (fun c => c <> x) s -> count_occ N.eq_dec s x = 0.
Proof.
  intros H. apply count_occ_not_In. intros Hin.
  rewrite Forall_forall in H. now apply (H _ Hin).
Qed.

Lemma isEmail_of_string_shape (s : jsstring) :
  emailShape s -> isEmail (num:=num) (Some (JStr s)) = Ok true.
Proof.
  intros H. unfold isEmail. simpl.
  apply emailPattern_spec in H. now rewrite H.
Qed.

(** X11. On a string, [isEmail] never throws, and it answers true exactly
    for a non-empty local part, an at-sign, and after it two non-empty
    stretches around a dot, none of the three holding white space or a
    further at-sign. *)
Theorem isEmail_accepts_exactly (s : jsstring) :
  (exists b, isEmail (num:=num) (Some (JStr s)) = Ok b)
  /\ (isEmail (num:=num) (Some (JStr s)) = Ok true <-> emailShape s).
Proof.
  unfold isEmail. simpl. split.
  - now exists (matches emailPattern s).
  - rewrite <- emailPattern_spec. split.
    + now intros [= ->].
    + now intros ->.
Qed.

(** X12. Whatever value passes [isEmail] has a string form with no white
    space in it -- so no line break -- exactly one at-sign, and at least
    five characters. *)
Theorem accepted_address_is_one_token (v : jsval num) :
  isEmail v = Ok true ->
  exists s,
    toStr v = Ok s
    /\ Forall (fun c => is_space c = false) s
    /\ ~ In newline s
    /\ count_occ N.eq_dec s (ch "@") = 1
    /\ 5 <= List.length s.
Proof.
  unfold isEmail, rbind. destruct v as [j|].
  - destruct (toStr (Some j)) as [s|e] eqn:Es; [|discriminate].
    intros [= Hm]. exists s. split; [reflexivity|].
    apply emailPattern_spec in Hm
      as (a & b & c & -> & Ha & Hb & Hc & Fa & Fb & Fc).
    assert (Hsp : forall l, Forall (fun x => notSpaceAt x = true) l ->
                            Forall (fun x => is_space x = false) l).
    { intros l. apply Forall_impl. intros x Hx.
      now apply notSpaceAt_spec in Hx. }
    assert (Hat : forall l, Forall (fun x => notSpaceAt x = true) l ->
                            count_occ N.eq_dec l (ch "@") = 0).
    { intros l Hl. apply count_occ_absent. revert Hl. apply Forall_impl.
      intros x Hx. now apply notSpaceAt_spec in Hx. }
    assert (Hall : Forall (fun c0 => is_space c0 = false)
                     (a ++ ch "@" :: b ++ ch "." :: c)).
    { apply Forall_app. split; [now apply Hsp|].
      constructor; [reflexivity|].
      apply Forall_app. split; [now apply Hsp|].
      constructor; [reflexivity|now apply Hsp]. }
    split; [assumption|]. split; [|split].
    + intros Hin. rewrite Forall_forall in Hall.
      specialize (Hall _ Hin). discriminate.
    + rewrite count_occ_app, (count_occ_cons_eq N.eq_dec _ eq_refl).
      rewrite count_occ_app, count_occ_cons_neq by discriminate.
      pose proof (Hat _ Fa) as Ea. pose proof (Hat _ Fb) as Eb.
      pose proof (Hat _ Fc) as Ec. unfold jschar in *.
      rewrite Ea, Eb, Ec. reflexivity.
    + rewrite length_app. simpl. rewrite length_app. simpl.
      destruct a; [contradiction|]. destruct b; [contradiction|].
      destruct c; [contradiction|]. simpl. lia.
  - discriminate.
Qed.

(** X13. [isEmail] tests the string form of whatever it is given: [null],
    booleans and objects never pass, but an array holding one valid address
    does, so that a request can pass validation with an email that is not a
    string. *)
Theorem isEmail_converts_before_it_tests :
  isEmail (num:=num) (Some JNull) = Ok false
  /\ (forall b, isEmail (num:=num) (Some (JBool b)) = Ok false)
  /\ (forall kv, isEmail (num:=num) (Some (JObj kv)) <> Ok true)
  /\ (forall s, isEmail (Some (JArr [JStr s]))
                = isEmail (num:=num) (Some (JStr s)))
  /\ (forall s, emailShape s ->
        truthy (num:=num) (Some (JArr [JStr s])) = true
        /\ isEmail (num:=num) (Some (JArr [JStr s])) = Ok true).
Proof.
  split; [reflexivity|]. split; [now intros [|]|]. split; [|split].
  - intros kv. unfold isEmail, rbind. simpl.
    destruct (assoc (lit "toString") kv); [discriminate|].
    vm_compute. discriminate.
  - reflexivity.
  - intros s Hs. split; [reflexivity|].
    change (isEmail (num:=num) (Some (JArr [JStr s])))
      with (isEmail (num:=num) (Some (JStr s))).
    now apply isEmail_of_string_shape.
Qed.

End IsEmail.

Lemma accepted_address_witness :
  exists s,
    toStr (num:=NoNumber) (str (lit "al@example.com")) = Ok s
    /\ Forall (fun c => is_space c = false) s
    /\ ~ In newline s
    /\ count_occ N.eq_dec s (ch "@") = 1
    /\ 5 <= List.length s.
Proof.
  apply (@accepted_address_is_one_token NoNumber JsNumber_NoNumber).
  reflexivity.
Defined.

(* ------------------------------------------------------------------ *)
(** ** sendWithTimeout *)


(* ------------------------------------------------------------------ *)
(** ** Identifiers the relay does not report *)

Lemma code_is_not_success {num : Type} (e : exn num) :
  Server.code e <> 200 /\ Server.code e <> 400.
Proof.
  unfold Server.code.
  destruct (strict_eq_str (err_message e) (lit "SMTP_TIMEOUT"));
    split; discriminate.
Qed.

(** X15. part_000 answers 200 whenever both sends are delivered in time,
    identifier or not: for a send whose result is [undefined], [null], or
    holds no truthy [messageId], it reports [null]. *)
Theorem Server_reports_null_for_a_missing_identifier
    (num : Type) (NumOps : JsNumber num)
    (env : Env) (transporter : Transport num) (nowISO : jsstring)
    (req_body : jsval num)
    (txt subj markup : jsstring) (d1 d2 : time) (info1 info2 : jsval num) :
  missingRequired (destructure req_body) = false ->
  isEmail (email (destructure req_body)) = Ok true ->
  env_is (DISABLE_EMAIL env) (lit "true") = false ->
  leadText (destructure req_body) nowISO = Ok txt ->
  leadSubject (destructure req_body) = Ok subj ->
  autoHtml (destructure req_body) = Ok markup ->
  transporter 0 (leadMessage env (destructure req_body) subj txt)
    = Some (d1, Fulfilled info1) ->
  transporter 1 (autoMessage env (destructure req_body) markup)
    = Some (d2, Fulfilled info2) ->
  (d1 < sendTimeout)%N -> (d2 < sendTimeout)%N ->
  truthy (Server.optMember info1 (lit "messageId")) = false ->
  truthy (Server.optMember info2 (lit "messageId")) = false ->
  run (Server.handler env transporter nowISO req_body)
  = {| response :=
         Some (N.max d1 d2,
               respond 200 [ (lit "ok", Some (JBool true));
                             (lit "leadId", Some JNull);
                             (lit "autoId", Some JNull) ]);
       sent := [ (0%N, leadMessage env (destructure req_body) subj txt);
                 (0%N, autoMessage env (destructure req_body) markup) ];
       logged := [] |}.
Proof.
  intros Hm He Hd Ht Hs Hh H1 H2 Hd1 Hd2 Hi1 Hi2.
  rewrite (Server_built env transporter nowISO req_body Hm He Hd Ht Hs Hh).
  cbv zeta. rewrite H1, H2.
  unfold race, Server.timer. rewrite N.add_0_l.
  apply N.lt_le_incl, N.leb_le in Hd1, Hd2. rewrite Hd1, Hd2.
  unfold all2, or_else. now rewrite Hi1, Hi2.
Qed.

Lemma Server_reports_null_witness :
  run (Server.handler Examples.env Cases.bare Examples.now Examples.request)
  = {| response :=
         Some (N.max 40 40,
               respond 200 [ (lit "ok", Some (JBool true));
                             (lit "leadId", Some JNull);
                             (lit "autoId", Some JNull) ]);
       sent := [ (0%N, Cases.lead_message); (0%N, Cases.auto_message) ];
       logged := [] |}.
Proof.
  apply (@Server_reports_null_for_a_missing_identifier NoNumber
           JsNumber_NoNumber Examples.env Cases.bare Examples.now
           Examples.request _ _ _ 40%N 40%N None None);
    reflexivity.
Defined.

(** X16. index.js reads [messageId] off each send's result without a
    guard: when the relay delivers both mails but resolves either send with
    [undefined] or [null], the request is answered 500 although both mails
    went out. *)
Theorem Index_needs_an_info_object
    (num : Type) (NumOps : JsNumber num)
    (env : Env) (transporter : Transport num) (nowISO : jsstring)
    (req_body : jsval num)
    (txt subj markup : jsstring) (d1 d2 : time) (info1 info2 : jsval num) :
  missingRequired (destructure req_body) = false ->
  isEmail (email (destructure req_body)) = Ok true ->
  leadText (destructure req_body) nowISO = Ok txt ->
  leadSubject (destructure req_body) = Ok subj ->
  autoHtml (destructure req_body) = Ok markup ->
  transporter 0 (leadMessage env (destructure req_body) subj txt)
    = Some (d1, Fulfilled info1) ->
  transporter 1 (autoMessage env (destructure req_body) markup)
    = Some (d2, Fulfilled info2) ->
  info1 = None \/ info1 = Some JNull \/ info2 = None \/ info2 = Some JNull ->
  response (run (Index.handler env transporter nowISO req_body))
    = Some ((d1 + d2)%N, failure 500 (lit "MAIL_SEND_FAILED"))
  /\ sent (run (Index.handler env transporter nowISO req_body))
     = [ (0%N, leadMessage env (destructure req_body) subj txt);
         (d1, autoMessage env (destructure req_body) markup) ].
Proof.
  intros Hm He Ht Hs Hh H1 H2 Hbad.
  rewrite (Index_built env transporter nowISO req_body Hm He Ht Hs Hh).
  cbv zeta. rewrite H1, H2.
  destruct Hbad as [E | [E | [E | E]]]; rewrite E; simpl.
  - now split.
  - now split.
  - destruct (Index.member info1 _); now split.
  - destruct (Index.member info1 _); now split.
Qed.

Lemma Index_needs_an_info_object_witness :
  response (run (Index.handler Examples.env Cases.bare Examples.now
                   Examples.request))
    = Some ((40 + 40)%N, failure 500 (lit "MAIL_SEND_FAILED"))
  /\ sent (run (Index.handler Examples.env Cases.bare Examples.now
                  Examples.request))
     = [ (0%N, Cases.lead_message); (40%N, Cases.auto_message) ].
Proof.
  apply (@Index_needs_an_info_object NoNumber JsNumber_NoNumber
           Examples.env Cases.bare Examples.now Examples.request
           _ _ _ 40%N 40%N None None);
    try reflexivity.
  now left.
Defined.

(* ------------------------------------------------------------------ *)
(** ** What a success stands for *)

(** X17. index.js answers 200 only when the relay has delivered both
    mails, the lead notice first and the auto-reply after it; the answer
    then comes at the instant the second one is delivered. *)
Theorem Index_success_means_both_delivered
    (num : Type) (NumOps : JsNumber num)
    (env : Env) (transporter : Transport num) (nowISO : jsstring)
    (req_body : jsval num) (t : time) (r : Response num) :
  response (run (Index.handler env transporter nowISO req_body)) = Some (t, r) ->
  status r = 200 ->
  exists txt subj markup d1 d2 info1 info2,
    leadText (destructure req_body) nowISO = Ok txt
    /\ leadSubject (destructure req_body) = Ok subj
    /\ autoHtml (destructure req_body) = Ok markup
    /\ transporter 0 (leadMessage env (destructure req_body) subj txt)
       = Some (d1, Fulfilled info1)
    /\ transporter 1 (autoMessage env (destructure req_body) markup)
       = Some (d2, Fulfilled info2)
    /\ t = (d1 + d2)%N
    /\ sent (run (Index.handler env transporter nowISO req_body))
       = [ (0%N, leadMessage env (destructure req_body) subj txt);
           (d1, autoMessage env (destructure req_body) markup) ].
Proof.
  set (f := destructure req_body).
  destruct (missingRequired f) eqn:Hm.
  { rewrite Index_missing by assumption. intros [= _ <-]. discriminate. }
  destruct (isEmail (email f)) as [[|]|e] eqn:He.
  2:{ rewrite Index_invalid by assumption. intros [= _ <-]. discriminate. }
  2:{ rewrite (Index_isEmail_throws _ _ _ _ Hm He). intros [= _ <-].
      discriminate. }
  destruct (leadSubject f) as [subj|e] eqn:Hs.
  2:{ rewrite (Index_subject_throws _ _ _ _ Hm He Hs). intros [= _ <-].
      discriminate. }
  destruct (leadText f nowISO) as [txt|e] eqn:Ht.
  2:{ rewrite (Index_text_throws _ _ _ _ Hm He Hs Ht). intros [= _ <-].
      discriminate. }
  destruct (leadText_ok _ _ Ht) as (subj' & markup & _ & Hh).
  rewrite (Index_built env transporter nowISO req_body Hm He Ht Hs Hh).
  cbv zeta. fold f.
  destruct (transporter 0 _) as [[d1 [i1|e1]]|] eqn:E1; simpl;
    [|intros [= _ <-]; discriminate|discriminate].
  destruct (transporter 1 _) as [[d2 [i2|e2]]|] eqn:E2; simpl;
    [|intros [= _ <-]; discriminate|discriminate].
  destruct (Index.member i1 _); [|intros [= _ <-]; discriminate].
  destruct (Index.member i2 _); [|intros [= _ <-]; discriminate].
  intros [= <- <-] _.
  exists txt, subj, markup, d1, d2, i1, i2. repeat split; assumption.
Qed.

Lemma Index_success_witness :
  exists txt subj markup d1 d2 info1 info2,
    leadText (destructure Examples.request) Examples.now = Ok txt
    /\ leadSubject (destructure Examples.request) = Ok subj
    /\ autoHtml (destructure Examples.request) = Ok markup
    /\ Examples.relay (lit "id-1") (lit "id-2") 0
         (leadMessage Examples.env (destructure Examples.request) subj txt)
       = Some (d1, Fulfilled info1)
    /\ Examples.relay (lit "id-1") (lit "id-2") 1
         (autoMessage Examples.env (destructure Examples.request) markup)
       = Some (d2, Fulfilled info2)
    /\ 250%N = (d1 + d2)%N
    /\ sent (run (Index.handler Examples.env
                    (Examples.relay (lit "id-1") (lit "id-2"))
                    Examples.now Examples.request))
       = [ (0%N, leadMessage Examples.env (destructure Examples.request)
                   subj txt);
           (d1, autoMessage Examples.env (destructure Examples.request)
                  markup) ].
Proof.
  apply (@Index_success_means_both_delivered NoNumber JsNumber_NoNumber
           Examples.env (Examples.relay (lit "id-1") (lit "id-2"))
           Examples.now Examples.request 250%N
           (respond 200 [ (lit "ok", Some (JBool true));
                          (lit "leadId", str (lit "id-1"));
                          (lit "autoId", str (lit "id-2")) ])).
  - reflexivity.
  - reflexivity.
Defined.

(** X18. part_000, with mail enabled, answers 200 only when the relay has
    delivered both mails, each within the send timeout; the answer then
    comes when the slower of the two is delivered. *)
Theorem Server_success_means_both_delivered
    (num : Type) (NumOps : JsNumber num)
    (env : Env) (transporter : Transport num) (nowISO : jsstring)
    (req_body : jsval num) (t : time) (r : Response num) :
  response (run (Server.handler env transporter nowISO req_body)) = Some (t, r) ->
  status r = 200 ->
  env_is (DISABLE_EMAIL env) (lit "true") = false ->
  exists txt subj markup d1 d2 info1 info2,
    leadText (destructure req_body) nowISO = Ok txt
    /\ leadSubject (destructure req_body) = Ok subj
    /\ autoHtml (destructure req_body) = Ok markup
    /\ transporter 0 (leadMessage env (destructure req_body) subj txt)
       = Some (d1, Fulfilled info1)
    /\ transporter 1 (autoMessage env (destructure req_body) markup)
       = Some (d2, Fulfilled info2)
    /\ (d1 <= sendTimeout)%N /\ (d2 <= sendTimeout)%N
    /\ t = N.max d1 d2.
Proof.
  set (f := destructure req_body).
  intros Hr Hst Hd. revert Hr.
  destruct (missingRequired f) eqn:Hm.
  { rewrite Server_missing by assumption. intros [= _ <-]. discriminate. }
  destruct (isEmail (email f)) as [[|]|e] eqn:He.
  2:{ rewrite Server_invalid by assumption. intros [= _ <-]. discriminate. }
  2:{ rewrite (Server_isEmail_throws _ _ _ _ Hm He). intros [= _ <-].
      now destruct (code_is_not_success e). }
  destruct (leadText f nowISO) as [txt|e] eqn:Ht.
  2:{ rewrite (Server_text_throws _ _ _ _ Hm He Hd Ht). intros [= _ <-].
      now destruct (code_is_not_success e). }
  destruct (leadText_ok _ _ Ht) as (subj & markup & Hs & Hh).
  rewrite (Server_built env transporter nowISO req_body Hm He Hd Ht Hs Hh).
  cbv zeta. fold f.
  unfold race, Server.timer. rewrite N.add_0_l.
  destruct (transporter 0 _) as [[d1 [i1|e1]]|] eqn:E1;
    destruct (transporter 1 _) as [[d2 [i2|e2]]|] eqn:E2;
    repeat match goal with
           | |- context [N.leb ?a ?b] =>
               let L := fresh "L" in destruct (N.leb a b) eqn:L
           end;
    unfold all2;
    repeat match goal with
           | |- context [N.leb ?a ?b] => destruct (N.leb a b)
           end;
    simpl;
    try (intros [= _ <-]; simpl in Hst;
         match goal with
         | |- _ => now destruct (code_is_not_success (num:=num)
                                   (Error (lit "SMTP_TIMEOUT")))
         | |- _ => now destruct (code_is_not_success e1)
         | |- _ => now destruct (code_is_not_success e2)
         end).
  intros [= <- _].
  exists txt, subj, markup, d1, d2, i1, i2.
  apply N.leb_le in L, L0. repeat split; assumption.
Qed.

Lemma Server_success_witness :
  exists txt subj markup d1 d2 info1 info2,
    leadText (destructure Examples.request) Examples.now = Ok txt
    /\ leadSubject (destructure Examples.request) = Ok subj
    /\ autoHtml (destructure Examples.request) = Ok markup
    /\ Examples.relay (lit "id-1") (lit "id-2") 0
         (leadMessage Examples.env (destructure Examples.request) subj txt)
       = Some (d1, Fulfilled info1)
    /\ Examples.relay (lit "id-1") (lit "id-2") 1
         (autoMessage Examples.env (destructure Examples.request) markup)
       = Some (d2, Fulfilled info2)
    /\ (d1 <= sendTimeout)%N /\ (d2 <= sendTimeout)%N
    /\ 150%N = N.max d1 d2.
Proof.
  apply (@Server_success_means_both_delivered NoNumber JsNumber_NoNumber
           Examples.env (Examples.relay (lit "id-1") (lit "id-2"))
           Examples.now Examples.request 150%N
           (respond 200 [ (lit "ok", Some (JBool true));
                          (lit "leadId", str (lit "id-1"));
                          (lit "autoId", str (lit "id-2")) ])).
  - reflexivity.
  - reflexivity.
  - reflexivity.
Defined.

(* ------------------------------------------------------------------ *)
(** ** The general facts above, on concrete requests *)

Lemma Server_timeout_witness :
  run (Server.handler Examples.env Examples.silent Examples.now
         Examples.request)
  = {| response := Some (sendTimeout, failure 504 (lit "MAIL_SEND_FAILED"));
       sent := [ (0%N, Cases.lead_message); (0%N, Cases.auto_message) ];
       logged := [Error (lit "SMTP_TIMEOUT")] |}.
Proof.
  eapply (@Server_timeout_answers_504 NoNumber JsNumber_NoNumber
            Examples.env Examples.silent Examples.now Examples.request);
    try reflexivity.
  - intros (d & e & H & _). discriminate H.
  - intros (d & e & H & _). discriminate H.
  - left. exact I.
Defined.

Lemma Server_failure_witness :
  exists e,
    logged (run (Server.handler Examples.env Examples.refusing Examples.now
                   Examples.request)) = [e]
    /\ Cases.answer (run (Server.handler Examples.env Examples.refusing
                            Examples.now Examples.request))
       = failure (if strict_eq_str (err_message e) (lit "SMTP_TIMEOUT")
                  then 504 else 502)
                 (lit "MAIL_SEND_FAILED").
Proof.
  apply (@Server_failure_is_generic NoNumber JsNumber_NoNumber
           Examples.env Examples.refusing Examples.now Examples.request
           30%N).
  - reflexivity.
  - discriminate.
  - discriminate.
Defined.

Lemma Server_issues_both_witness :
  sent (run (Server.handler Examples.env Examples.refusing Examples.now
               Examples.request))
  = [ (0%N, Cases.lead_message); (0%N, Cases.auto_message) ].
Proof.
  apply (@Server_issues_both_sends_at_once NoNumber JsNumber_NoNumber
           Examples.env Examples.refusing Examples.now Examples.request);
    reflexivity.
Defined.

Lemma Server_disabled_witness :
  run (Server.handler Examples.env_disabled
         (Examples.relay (lit "id-1") (lit "id-2"))
         Examples.now Examples.request)
  = {| response :=
         Some (0%N, respond 200 [ (lit "ok", Some (JBool true));
                                  (lit "note", str (lit "email disabled"));
                                  (lit "submittedAt", str Examples.now) ]);
       sent := []; logged := [] |}.
Proof.
  apply (@Server_disabled_skips_sending NoNumber JsNumber_NoNumber);
    reflexivity.
Defined.

Lemma Index_failure_witness :
  Cases.answer (run (Index.handler Examples.env Examples.refusing
                       Examples.now Examples.request))
  = failure 500 (lit "MAIL_SEND_FAILED").
Proof.
  apply (@Index_failure_is_500 NoNumber JsNumber_NoNumber
           Examples.env Examples.refusing Examples.now Examples.request
           30%N).
  - reflexivity.
  - discriminate.
  - discriminate.
Defined.

Lemma Index_waits_witness :
  run (Index.handler Examples.env Examples.silent Examples.now
         Examples.request)
  = {| response := None;
       sent := [ (0%N, Cases.lead_message) ];
       logged := [] |}.
Proof.
  eapply (@Index_waits_for_the_relay NoNumber JsNumber_NoNumber
            Examples.env Examples.silent Examples.now Examples.request);
    reflexivity.
Defined.

Lemma Index_auto_reply_witness :
  exists internal,
    Examples.relay (lit "id-1") (lit "id-2") 0 Cases.lead_message
    = Some (100%N, Fulfilled internal).
Proof.
  eapply (@Index_auto_reply_follows_lead NoNumber JsNumber_NoNumber
            Examples.env (Examples.relay (lit "id-1") (lit "id-2"))
            Examples.now Examples.request _ _ 100%N Cases.auto_message).
  - reflexivity.
  - reflexivity.
  - vm_compute. right. left. reflexivity.
  - reflexivity.
Defined.

(* ------------------------------------------------------------------ *)
(** ** The SMTP test script *)

Section SmtpScript.
Context {num : Type} {NumOps : JsNumber num}.
Variables (env : Env) (verify : promise num (jsval num)) (tx : Transport num).

Let ready_line : list (jsval num) := SmtpTest.ready_line.
Let sent_line : jsval num -> list (jsval num) := SmtpTest.sent_line.
Let mail : MailMessage num := SmtpTest.testMessage env.

(** The script, case by case. *)
Lemma script_report :
  SmtpTest.execute (SmtpTest.script env verify tx)
  = match verify with
    | None =>
        {| SmtpTest.events := []; SmtpTest.ending := SmtpTest.Waiting |}
    | Some (tv, Rejected e) =>
        {| SmtpTest.events := [SmtpTest.Reported e];
           SmtpTest.ending := SmtpTest.Finished tv |}
    | Some (tv, Fulfilled _) =>
        let out := [SmtpTest.Printed ready_line; SmtpTest.Sent tv mail] in
        match tx 0 mail with
        | None =>
            {| SmtpTest.events := out; SmtpTest.ending := SmtpTest.Waiting |}
        | Some (d, Rejected e) =>
            {| SmtpTest.events := out ++ [SmtpTest.Reported e];
               SmtpTest.ending := SmtpTest.Finished (tv + d)%N |}
        | Some (d, Fulfilled info) =>
            match Index.member info (lit "messageId") with
            | Ok id =>
                {| SmtpTest.events := out ++ [SmtpTest.Printed (sent_line id)];
                   SmtpTest.ending := SmtpTest.Finished (tv + d)%N |}
            | Throw e =>
                {| SmtpTest.events := out ++ [SmtpTest.Reported e];
                   SmtpTest.ending := SmtpTest.Finished (tv + d)%N |}
            end
        end
    end.
Proof.
  unfold SmtpTest.execute, SmtpTest.script, SmtpTest.attempt,
    SmtpTest.tryCatch, SmtpTest.andThen, SmtpTest.wait, SmtpTest.send,
    SmtpTest.console_log, SmtpTest.console_err, SmtpTest.evaluate.
  fold mail.
  destruct verify as [[tv [v|e]]|];
    cbn [SmtpTest.elapsed SmtpTest.trace app filter SmtpTest.is_sent List.length];
    rewrite ?N.max_0_l; try reflexivity.
  destruct (tx 0 mail) as [[d [info|e]]|];
    cbn [SmtpTest.elapsed SmtpTest.trace app filter SmtpTest.is_sent List.length];
    try replace (N.max tv (tv + d)) with (tv + d)%N by lia;
    try reflexivity.
  destruct (Index.member info (lit "messageId")) as [id|e]; reflexivity.
Qed.

(** X27. The test script issues its one mail exactly when [verify]
    succeeds, at that instant, and only after it has printed the ready line:
    the run then opens with the ready line, the send comes next, and no other
    send follows. When [verify] fails or never settles the script sends
    nothing and prints nothing: whatever happens is the report of an error.
    The mail goes to LEADS_TO as it is: unlike the handlers, the script has no
    default recipient. *)
Theorem smtp_test_sends_only_after_verify :
  (forall tv v, verify = Some (tv, Fulfilled v) ->
     exists rest,
       SmtpTest.events (SmtpTest.execute (SmtpTest.script env verify tx))
       = SmtpTest.Printed ready_line :: SmtpTest.Sent tv mail :: rest
       /\ forall t m, ~ In (SmtpTest.Sent t m) rest)
  /\ (verify = None \/ (exists tv e, verify = Some (tv, Rejected e)) ->
      forall ev,
        In ev (SmtpTest.events
                 (SmtpTest.execute (SmtpTest.script env verify tx))) ->
        exists e, ev = SmtpTest.Reported e)
  /\ (LEADS_TO env = None ->
      to (SmtpTest.testMessage (num:=num) env) = undefined).
Proof.
  rewrite script_report. split; [|split].
  - intros tv v ->. cbv zeta.
    destruct (tx 0 mail) as [[d [info|e]]|].
    + destruct (Index.member info _) as [id|e]; eexists;
        (split; [reflexivity|]); intros t m [H|[]]; discriminate H.
    + eexists. split; [reflexivity|]. intros t m [H|[]]. discriminate H.
    + exists []. split; [reflexivity|]. intros t m [].
  - intros [->|(tv & e & ->)] ev Hin; simpl in Hin.
    + contradiction.
    + destruct Hin as [<-|[]]. now exists e.
  - intros H. unfold SmtpTest.testMessage. simpl. now rewrite H.
Qed.


End SmtpScript.

(** The [try] is what keeps the exception in: its body alone, run against a
    server that cannot be reached, ends with the connection error uncaught;
    the script reports it and finishes. *)
Example smtp_attempt_alone_escapes :
  SmtpTest.execute
    (SmtpTest.attempt Examples.env SmtpCases.unreachable Examples.silent)
  = {| SmtpTest.events := [];
       SmtpTest.ending := SmtpTest.Escaped (Error (lit "connect ECONNREFUSED")) |}
  /\ SmtpTest.execute
       (SmtpTest.script Examples.env SmtpCases.unreachable Examples.silent)
     = {| SmtpTest.events :=
            [SmtpTest.Reported (Error (lit "connect ECONNREFUSED"))];
          SmtpTest.ending := SmtpTest.Finished 20%N |}.
Proof. split; reflexivity. Qed.

(** A run against a server that is ready and a relay that delivers. *)
Example smtp_test_run :
  SmtpTest.execute
    (SmtpTest.script Examples.env SmtpCases.ready
       (Examples.relay (lit "id-1") (lit "id-2")))
  = {| SmtpTest.events :=
         [ SmtpTest.Printed SmtpTest.ready_line;
           SmtpTest.Sent 20%N (SmtpTest.testMessage Examples.env);
           SmtpTest.Printed (SmtpTest.sent_line (str (lit "id-1"))) ];
       SmtpTest.ending := SmtpTest.Finished 120%N |}.
Proof. reflexivity. Qed.
